(** * FlatpakInstallation: a shallow embedding of lib/xdg-app-installation.c

    The development follows the layout of the C file: the progress
    callback, the deployment query [get_ref], the update-diff listing,
    and the install / update / uninstall transactions.  Calls into
    xdg-app-dir.c, xdg-app-utils.c, ostree and GLib are not part of the
    file; they appear here as fields of a directory state and of an engine
    record that fixes the outcome of every fallible call. *)

From Stdlib Require Import ZArith Lia List Sorted Ascii String.
From stdpp Require Import base option strings list gmap pretty.

Open Scope Z_scope.

(** ** Machine integers: [guint] is 32 bits wide, [guint64] 64 bits. *)

Module CInt.

Definition wrap32 (z : Z) : Z := z mod 2 ^ 32.
Definition wrap64 (z : Z) : Z := z mod 2 ^ 64.

(** Unsigned division.  Dividing by zero is undefined behaviour in C (a
    SIGFPE on x86); the embedding has no result for it. *)
Definition udiv (a b : Z) : option Z :=
  if decide (b = 0) then None else Some (a / b).

End CInt.

(** ** The progress callback (progress_cb) *)

Module Progress.
Import CInt.

Definition G_USEC_PER_SEC : Z := 1000000.

(** What ostree publishes on the OstreeAsyncProgress object when it fires
    the "changed" signal, plus the clock reading taken by the callback. *)
Record OstreeAsyncProgress := {
  status : option string;
  outstanding_fetches : Z;
  outstanding_metadata_fetches : Z;
  outstanding_writes : Z;
  scanned_metadata : Z;
  fetched_delta_parts : Z;
  total_delta_parts : Z;
  total_delta_part_size : Z;
  bytes_transferred : Z;
  fetched : Z;
  metadata_fetched : Z;
  requested : Z;
  start_time : Z;
  monotonic_time : Z;
}.

(** The arguments handed to the caller's FlatpakProgressCallback. *)
Record report := {
  text : string;
  percent : Z;
  estimating : bool;
}.

(** The percents of a list of reports, in delivery order. *)
Definition percents (rs : list report) : list Z := map percent rs.

Definition ellapsed_time (p : OstreeAsyncProgress) : Z :=
  wrap64 (monotonic_time p - start_time p) / G_USEC_PER_SEC.

Section Callback.

(** GLib's size formatters and the double-precision percentage printed in
    the "Receiving objects" line are taken as given. *)
Variable g_format_size : Z → string.
Variable g_format_size_full : Z → string.
Variable double_percent : Z → Z → Z.

(** The body of progress_cb up to the clamp: status text, [new_progress]
    and [estimating].  [None] is a division by zero. *)
Definition compute_progress (p : OstreeAsyncProgress) : option (string * Z * bool) :=
  match status p with
  | Some s => Some (s, 0, false)
  | None =>
    if decide (outstanding_fetches p ≠ 0) then
      bytes_sec ← udiv (bytes_transferred p) (ellapsed_time p);
      let formatted_bytes_transferred := g_format_size_full (bytes_transferred p) in
      let formatted_bytes_sec :=
        if decide (bytes_sec = 0) then "-" else g_format_size bytes_sec in
      if decide (total_delta_parts p > 0) then
        let formatted_total := g_format_size (total_delta_part_size p) in
        q ← udiv (wrap64 (100 * bytes_transferred p)) (total_delta_part_size p);
        Some ("Receiving delta parts: " +:+ pretty (fetched_delta_parts p) +:+ "/"
                +:+ pretty (total_delta_parts p) +:+ " " +:+ formatted_bytes_sec
                +:+ "/s " +:+ formatted_bytes_transferred +:+ "/" +:+ formatted_total,
              wrap32 q, false)
      else if decide (outstanding_metadata_fetches p ≠ 0) then
        Some ("Receiving metadata objects: " +:+ pretty (metadata_fetched p)
                +:+ "/(estimating) " +:+ formatted_bytes_sec +:+ "/s "
                +:+ formatted_bytes_transferred,
              1, true)
      else
        q ← udiv (wrap32 (100 * fetched p)) (requested p);
        Some ("Receiving objects: " +:+ pretty (double_percent (fetched p) (requested p))
                +:+ "% (" +:+ pretty (fetched p) +:+ "/" +:+ pretty (requested p) +:+ ") "
                +:+ formatted_bytes_sec +:+ "/s " +:+ formatted_bytes_transferred,
              q, false)
    else if decide (outstanding_writes p ≠ 0) then
      Some ("Writing objects: " +:+ pretty (outstanding_writes p), 0, false)
    else
      Some ("Scanning metadata: " +:+ pretty (scanned_metadata p), 0, false)
  end.

(** progress_cb: [last_progress] is the datum stored on the progress
    object; the result is the report delivered to the caller and the
    datum stored back. *)
Definition progress_cb (last_progress : Z) (p : OstreeAsyncProgress)
  : option (report * Z) :=
  '(buf, new_progress, estimating) ← compute_progress p;
  let new_progress :=
    if decide (new_progress < last_progress) then last_progress else new_progress in
  Some ({| text := buf; percent := new_progress; estimating := estimating |},
        new_progress).

(** One operation: the signal fires once per snapshot; a callback that
    divides by zero ends the run.  The second component is the final
    [last_progress], or [None] after such an end. *)
Fixpoint emit (last_progress : Z) (ps : list OstreeAsyncProgress)
  : list report * option Z :=
  match ps with
  | [] => ([], Some last_progress)
  | p :: ps' =>
    match progress_cb last_progress p with
    | None => ([], None)
    | Some (r, last') =>
      let '(rs, fin) := emit last' ps' in (r :: rs, fin)
    end
  end.

End Callback.

End Progress.

(** ** GLib string splitting *)

Module GStr.

(** Cuts [s] at every '/': the first piece and the remaining pieces. *)
Fixpoint pieces (s : string) : string * list string :=
  match s with
  | EmptyString => (EmptyString, [])
  | String a s' =>
    let '(p, ps) := pieces s' in
    if decide (a = "/"%char) then (EmptyString, p :: ps) else (String a p, ps)
  end.

(** g_strsplit (s, "/", -1): n delimiters give n+1 pieces, except that the
    empty string gives the empty vector. *)
Definition g_strsplit (s : string) : list string :=
  match s with
  | EmptyString => []
  | _ => let '(p, ps) := pieces s in p :: ps
  end.

End GStr.

(** ** Errors and results *)

Inductive error_code :=
  | FLATPAK_ERROR_ALREADY_INSTALLED
  | FLATPAK_ERROR_NOT_INSTALLED
  | G_IO_ERROR_NOT_FOUND
  | G_IO_ERROR_FAILED
  | G_IO_ERROR_BUSY
  | G_IO_ERROR_CANCELLED
  | OTHER_ERROR (domain code : Z).

Record GError := {
  code : error_code;
  message : string;
}.

(** The result of a C function that reports failure through a [GError **]:
    a value, an error, or no result at all (the process has run into
    undefined behaviour). *)
Inductive outcome (A : Type) :=
  | Ok (a : A)
  | Err (e : GError)
  | Crash.
Arguments Ok {A} a.
Arguments Err {A} e.
Arguments Crash {A}.

#[global] Instance outcome_ret : MRet outcome := λ A a, Ok a.
#[global] Instance outcome_bind : MBind outcome := λ A B f m,
  match m with
  | Ok a => f a
  | Err e => Err e
  | Crash => Crash
  end.

Definition of_sum {A} (r : GError + A) : outcome A :=
  match r with
  | inl e => Err e
  | inr a => Ok a
  end.

(** A NULL pointer handed to code that dereferences it. *)
Definition nonnull {A} (o : option A) : outcome A :=
  match o with
  | Some a => Ok a
  | None => Crash
  end.

(** ** References *)

Inductive FlatpakRefKind :=
  | FLATPAK_REF_KIND_APP
  | FLATPAK_REF_KIND_RUNTIME.

#[global] Instance FlatpakRefKind_eq_dec : EqDecision FlatpakRefKind.
Proof. solve_decision. Defined.

(** Modelled from the spec: the parsing of a ref string lives in
    xdg-app-utils.c and xdg-app-ref.c.  The canonical string form is
    "<kind>/<name>/<arch>/<branch>", so the kind and the name of a ref
    string are its first and second components. *)
Definition ref_kind (full_ref : string) : option FlatpakRefKind :=
  match GStr.g_strsplit full_ref !! 0%nat with
  | Some "app" => Some FLATPAK_REF_KIND_APP
  | Some "runtime" => Some FLATPAK_REF_KIND_RUNTIME
  | _ => None
  end.

Definition ref_name (full_ref : string) : option string :=
  GStr.g_strsplit full_ref !! 1%nat.

(** Modelled from the spec: the InstalledRef snapshot of
    xdg-app-installed-ref.c, with the fields the spec's data model lists.
    [flatpak_installed_ref_new] stores its arguments. *)
Record FlatpakInstalledRef := flatpak_installed_ref_new {
  installed_ref : string;
  installed_commit : string;
  latest_commit : option string;
  installed_origin : string;
  installed_subpaths : list string;
  deploy_path : string;
  installed_size : Z;
  is_current : bool;
}.

(** Modelled from the spec: the RemoteRef value of xdg-app-remote-ref.c,
    {ref, commit_checksum, remote_name}. *)
Record FlatpakRemoteRef := {
  remote_ref : string;
  remote_commit : string;
  remote_name : string;
}.

(** ** The installation directory *)

Record DeployData := {
  dd_origin : string;
  dd_commit : string;
  dd_subpaths : list string;
  dd_installed_size : Z;
}.

(** What the calls of xdg-app-dir.c that only read report about one state
    of the installation location. *)
Record FlatpakDir := {
  (** the remotes configured in the repository, in priority order *)
  remotes : list string;
  (** set when flatpak_dir_list_remotes fails *)
  list_remotes_error : option GError;
  (** flatpak_dir_list_remote_refs: the hash table refspec -> checksum, in
      iteration order *)
  list_remote_refs : string → GError + list (string * string);
  (** flatpak_dir_list_refs for the kind "app" or "runtime" *)
  list_refs : string → GError + list string;
  (** g_file_query_exists on flatpak_dir_get_deploy_dir (dir, ref) *)
  deploy_base_exists : string → bool;
  (** g_file_get_path of flatpak_dir_get_deploy_dir (dir, ref) *)
  deploy_dir : string → string;
  (** flatpak_dir_get_deploy_data, NULL when there is none *)
  deploy_data : string → option DeployData;
  (** flatpak_dir_current_ref for a name (NULL when the ref string has no
      second component) *)
  current_ref : option string → option string;
  (** flatpak_dir_read_latest (dir, origin, ref) *)
  read_latest : string → string → option string;
  (** flatpak_dir_get_origin and flatpak_dir_get_subpaths *)
  get_origin : string → GError + string;
  get_subpaths : string → GError + list string;
  (** whether flatpak_dir_get_if_deployed (dir, ref, NULL) finds a deploy *)
  if_deployed : string → bool;
}.

Definition set_remotes (rs : list string) (d : FlatpakDir) : FlatpakDir :=
  {| remotes := rs;
     list_remotes_error := list_remotes_error d;
     list_remote_refs := list_remote_refs d;
     list_refs := list_refs d;
     deploy_base_exists := deploy_base_exists d;
     deploy_dir := deploy_dir d;
     deploy_data := deploy_data d;
     current_ref := current_ref d;
     read_latest := read_latest d;
     get_origin := get_origin d;
     get_subpaths := get_subpaths d;
     if_deployed := if_deployed d |}.

(** flatpak_dir_list_remotes: the configured names, or the error. *)
Definition flatpak_dir_list_remotes (d : FlatpakDir) : GError + list string :=
  match list_remotes_error d with
  | Some e => inl e
  | None => inr (remotes d)
  end.

(** ** Deployment query *)

Module Query.

(** get_ref.  The deploy data and [parts[0]] are dereferenced without a
    check. *)
Definition get_ref (d : FlatpakDir) (full_ref : string) : outcome FlatpakInstalledRef :=
  let parts := GStr.g_strsplit full_ref in
  deploy_data ← nonnull (deploy_data d full_ref);
  let origin := dd_origin deploy_data in
  let commit := dd_commit deploy_data in
  let subpaths := dd_subpaths deploy_data in
  let installed_size := dd_installed_size deploy_data in
  let deploy_path := deploy_dir d full_ref +:+ "/" +:+ commit in
  parts_0 ← nonnull (parts !! 0%nat);
  let is_current :=
    if decide (parts_0 = "app") then
      match current_ref d (parts !! 1%nat) with
      | Some current => bool_decide (full_ref = current)
      | None => false
      end
    else false in
  let latest_commit := read_latest d origin full_ref in
  Ok (flatpak_installed_ref_new full_ref commit latest_commit origin subpaths
        deploy_path installed_size is_current).

Fixpoint get_refs (d : FlatpakDir) (raw_refs : list string)
  : outcome (list FlatpakInstalledRef) :=
  match raw_refs with
  | [] => Ok []
  | r :: rest =>
    x ← get_ref d r;
    xs ← get_refs d rest;
    Ok (x :: xs)
  end.

(** flatpak_installation_get_current_installed_app *)
Definition flatpak_installation_get_current_installed_app
    (d : FlatpakDir) (name : string) : outcome FlatpakInstalledRef :=
  match current_ref d (Some name) with
  | Some current =>
    if if_deployed d current then get_ref d current
    else Err {| code := G_IO_ERROR_NOT_FOUND;
                message := "App " +:+ name +:+ " no installed" |}
  | None => Err {| code := G_IO_ERROR_NOT_FOUND;
                   message := "App " +:+ name +:+ " no installed" |}
  end.

(** flatpak_installation_list_installed_refs *)
Definition flatpak_installation_list_installed_refs (d : FlatpakDir)
  : outcome (list FlatpakInstalledRef) :=
  raw_refs_app ← of_sum (list_refs d "app");
  apps ← get_refs d raw_refs_app;
  raw_refs_runtime ← of_sum (list_refs d "runtime");
  runtimes ← get_refs d raw_refs_runtime;
  Ok (apps ++ runtimes).

(** flatpak_installation_list_installed_refs_by_kind *)
Definition flatpak_installation_list_installed_refs_by_kind
    (d : FlatpakDir) (kind : FlatpakRefKind) : outcome (list FlatpakInstalledRef) :=
  raw_refs ← of_sum (list_refs d
                (if decide (kind = FLATPAK_REF_KIND_APP) then "app" else "runtime"));
  get_refs d raw_refs.

End Query.

(** ** Update-diff listing *)

Module UpdateDiff.
Import Query.

(** Modelled from the spec: flatpak_ref_format_ref is in xdg-app-ref.c.
    Composition and decomposition of a ref are exact inverses, so
    formatting the ref of a snapshot gives back the ref string it was
    built from. *)
Definition installed_format_ref (r : FlatpakInstalledRef) : string := installed_ref r.
Definition remote_format_ref (r : FlatpakRemoteRef) : string := remote_ref r.

(** g_strdup_printf ("%s:%s", remote, full_ref) *)
Definition update_key (remote full_ref : string) : string :=
  remote +:+ ":" +:+ full_ref.

(** Whether a remote name contains the ':' that separates the two parts
    of a key. *)
Fixpoint has_colon (s : string) : bool :=
  match s with
  | EmptyString => false
  | String a s' => bool_decide (a = ":"%char) || has_colon s'
  end.

Definition newline : string := String (ascii_of_nat 10) EmptyString.

(** g_strcmp0 (a, b) != 0 for a non-NULL [a]. *)
Definition differs (a : string) (b : option string) : bool :=
  bool_decide (Some a ≠ b).

Section Listing.

(** flatpak_remote_ref_new (refspec, checksum, remote_name), NULL for a
    refspec it does not accept. *)
Variable flatpak_remote_ref_new : string → string → string → option FlatpakRemoteRef.

(** flatpak_installation_list_remotes: one FlatpakRemote per name. *)
Definition flatpak_installation_list_remotes (d : FlatpakDir) : GError + list string :=
  match flatpak_dir_list_remotes d with
  | inl e => inl e
  | inr remote_names => inr remote_names
  end.

(** flatpak_installation_list_remote_refs_sync *)
Definition flatpak_installation_list_remote_refs_sync (d : FlatpakDir) (remote_name : string)
  : GError + list FlatpakRemoteRef :=
  match list_remote_refs d remote_name with
  | inl e => inl e
  | inr ht =>
    inr (omap (M := list)
           (λ '(refspec, checksum), flatpak_remote_ref_new refspec checksum remote_name)
           ht)
  end.

(** The inner loop over one remote's refs: g_hash_table_insert replaces
    the value of a key that is already there. *)
Definition insert_refs (remote : string) (refs : list FlatpakRemoteRef)
    (ht : gmap string string) : gmap string string :=
  foldl (λ ht remote_ref,
           <[update_key remote (remote_format_ref remote_ref) := remote_commit remote_ref]> ht)
        ht refs.

(** The outer loop over the remotes.  The accumulator is the hash table
    and the g_debug lines written so far. *)
Definition scan_remote (d : FlatpakDir) (acc : gmap string string * list string)
    (remote : string) : gmap string string * list string :=
  match flatpak_installation_list_remote_refs_sync d remote with
  | inr refs => (insert_refs remote refs acc.1, acc.2)
  | inl local_error =>
    (acc.1, acc.2 ++ ["Update: Failed to read remote " +:+ remote +:+ ": "
                        +:+ message local_error +:+ newline])
  end.

Definition scan_remotes (d : FlatpakDir) (remotes : list string)
  : gmap string string * list string :=
  foldl (scan_remote d) (∅, []) remotes.

(** A key of the table was inserted for a ref of a remote whose catalog
    could be listed, and conversely. *)
Definition advertised (d : FlatpakDir) (rs : list string) (k : string) : Prop :=
  ∃ remote refs rr,
    remote ∈ rs ∧ flatpak_installation_list_remote_refs_sync d remote = inr refs
    ∧ rr ∈ refs ∧ k = update_key remote (remote_ref rr).

(** The last loop: the installed refs whose key is in the table with a
    commit other than their latest commit. *)
Definition needs_update (ht : gmap string string) (installed_ref : FlatpakInstalledRef) : bool :=
  match ht !! update_key (installed_origin installed_ref) (installed_format_ref installed_ref) with
  | Some remote_ref => differs remote_ref (latest_commit installed_ref)
  | None => false
  end.

Fixpoint collect_updates (ht : gmap string string) (installed updates : list FlatpakInstalledRef)
  : list FlatpakInstalledRef :=
  match installed with
  | [] => updates
  | installed_ref :: rest =>
    collect_updates ht rest
      (if needs_update ht installed_ref then updates ++ [installed_ref] else updates)
  end.

(** flatpak_installation_list_installed_refs_for_update, with the g_debug
    lines it wrote. *)
Definition flatpak_installation_list_installed_refs_for_update (d : FlatpakDir)
  : outcome (list FlatpakInstalledRef) * list string :=
  match flatpak_installation_list_remotes d with
  | inr remotes =>
    let '(ht, debug) := scan_remotes d remotes in
    match flatpak_installation_list_installed_refs d with
    | Ok installed => (Ok (collect_updates ht installed []), debug)
    | Err e => (Err e, debug)
    | Crash => (Crash, debug)
    end
  | inl e => (Err e, [])
  end.

End Listing.

End UpdateDiff.

(** ** Install, update and uninstall *)

Module Transactions.
Import Progress Query.

(** The calls that change the installation or the process, as they are
    logged by the embedding. *)
Inductive step :=
  | g_main_context_push_thread_default
  | g_main_context_pop_thread_default
  | ostree_async_progress_finish
  | flatpak_dir_create_origin_remote (origin : option string) (id title : string) (gpg : bool)
  | flatpak_dir_ensure_repo
  | flatpak_pull_from_bundle (file remote ref : string) (require_gpg : bool)
  | flatpak_dir_deploy_install (ref remote : string)
  | ostree_repo_remote_delete (remote : string)
  | flatpak_dir_install (ref remote : string)
  | flatpak_dir_update (no_pull no_deploy : bool) (remote ref : string) (subpaths : list string)
  | flatpak_dir_lock
  | glnx_release_lock_file
  | flatpak_dir_set_active (ref : string)
  | flatpak_dir_drop_current_ref (name : string)
  | flatpak_dir_undeploy_all (ref : string)
  | flatpak_dir_remove_ref (remote ref : string)
  | flatpak_dir_prune
  | flatpak_dir_cleanup_removed
  | flatpak_dir_update_exports (name : string)
  | flatpak_dir_mark_changed.

(** What flatpak_bundle_load reads from a bundle file. *)
Record Bundle := {
  bundle_ref : string;
  bundle_origin : option string;
  bundle_gpg_data : option string;
  bundle_checksum : string;
}.

(** Everything outside the file that one call of a transaction depends on:
    the helpers of xdg-app-utils.c, and for each step whether it fails,
    what it does to the directory and which progress signals it fires. *)
Record Engine := {
  flatpak_compose_ref : bool → string → option string → option string → GError + string;
  flatpak_decompose_ref : string → GError + (string * string * string * string);
  flatpak_bundle_load : string → GError + Bundle;
  g_file_get_basename : string → string;
  origin_remote : option string → string → string → GError + string;
  fails : step → option GError;
  effect : step → FlatpakDir → FlatpakDir;
  was_deployed : string → bool;
  signals : step → list OstreeAsyncProgress;
  g_format_size : Z → string;
  g_format_size_full : Z → string;
  double_percent : Z → Z → Z;
  FLATPAK_UPDATE_FLAGS_NO_PULL : Z;
  FLATPAK_UPDATE_FLAGS_NO_DEPLOY : Z;
}.

(** The directory on disk (shared by [priv->dir] and its clone), the lock
    file of the running call, the steps taken so far, each with the state
    of the lock when it ran, and the reports handed to the caller. *)
Record World := {
  disk : FlatpakDir;
  lock : bool;
  calls : list (step * bool);
  delivered : list report;
}.

(** The steps of uninstall that change the pointers, the deploy
    directories and the catalog, and the steps that follow the release of
    the lock. *)
Definition exclusive (s : step) : bool :=
  match s with
  | flatpak_dir_set_active _ | flatpak_dir_drop_current_ref _
  | flatpak_dir_undeploy_all _ | flatpak_dir_remove_ref _ _ => true
  | _ => false
  end.

Definition non_exclusive (s : step) : bool :=
  match s with
  | flatpak_dir_prune | flatpak_dir_cleanup_removed
  | flatpak_dir_update_exports _ | flatpak_dir_mark_changed => true
  | _ => false
  end.

Definition Tx (A : Type) : Type := World → outcome A * World.

#[global] Instance tx_ret : MRet Tx := λ A a w, (Ok a, w).
#[global] Instance tx_bind : MBind Tx := λ A B f m w,
  match m w with
  | (Ok a, w') => f a w'
  | (Err e, w') => (Err e, w')
  | (Crash, w') => (Crash, w')
  end.

Definition throw {A} (e : GError) : Tx A := λ w, (Err e, w).
Definition lift {A} (o : outcome A) : Tx A := λ w, (o, w).
Definition read {A} (f : FlatpakDir → A) : Tx A := λ w, (Ok (f (disk w)), w).

Definition set_disk (d : FlatpakDir) (w : World) : World :=
  {| disk := d; lock := lock w; calls := calls w; delivered := delivered w |}.
Definition set_lock (b : bool) (w : World) : World :=
  {| disk := disk w; lock := b; calls := calls w; delivered := delivered w |}.
Definition log (s : step) (w : World) : World :=
  {| disk := disk w; lock := lock w; calls := calls w ++ [(s, lock w)];
     delivered := delivered w |}.
Definition deliver (rs : list report) (w : World) : World :=
  {| disk := disk w; lock := lock w; calls := calls w; delivered := delivered w ++ rs |}.

(** The C idiom "goto out": [out] runs after [body] whether it returned a
    value or an error, and sees which. *)
Definition goto_out {A} (body : Tx A) (out : outcome A → World → World) : Tx A :=
  λ w,
    match body w with
    | (Crash, w') => (Crash, w')
    | (r, w') => (r, out r w')
    end.

(** g_auto (GLnxLockFile) lock = GLNX_LOCK_FILE_INIT: the lock starts
    released and glnx_release_lock_file runs when the scope is left. *)
Definition g_auto_lock {A} (body : Tx A) : Tx A :=
  λ w, let '(r, w') := body (set_lock false w) in (r, set_lock false w').

Section Engine.

Variable E : Engine.

Definition record (s : step) (w : World) : World :=
  set_disk (effect E s (disk w)) (log s w).

Definition result_of (s : step) : outcome unit :=
  match fails E s with
  | Some e => Err e
  | None => Ok ()
  end.

(** A call whose failure is propagated. *)
Definition call (s : step) : Tx unit := λ w, (result_of s, record s w).

(** A call made with a NULL error location and an unused result. *)
Definition call_ignoring_error (s : step) : Tx unit := λ w, (Ok (), record s w).

(** A call that only concerns the running process. *)
Definition local_call (s : step) : Tx unit := λ w, (Ok (), log s w).

(** A pull that reports to [ostree_progress]: progress_cb runs once per
    signal, starting from the "last_progress" datum 0 set at connection. *)
Definition call_with_progress (progress : bool) (s : step) : Tx unit :=
  λ w,
    if progress then
      let '(rs, fin) :=
        emit (g_format_size E) (g_format_size_full E) (double_percent E) 0 (signals E s) in
      match fin with
      | Some _ => (result_of s, deliver rs (record s w))
      | None => (Crash, deliver rs (record s w))
      end
    else (result_of s, record s w).

(** Modelled from the spec: flatpak_dir_create_origin_remote is in
    xdg-app-dir.c.  Its interface is
    createRemote(origin, nameHint, label, signingMaterial) -> remoteName | error;
    on success the named entry is in the remote catalog. *)
Definition create_origin_remote (origin : option string) (id title : string)
    (gpg_data : option string) : Tx string :=
  λ w,
    let w' := log (flatpak_dir_create_origin_remote origin id title
                     (bool_decide (gpg_data ≠ None))) w in
    match origin_remote E origin id title with
    | inl e => (Err e, w')
    | inr remote => (Ok remote, set_disk (set_remotes (remotes (disk w') ++ [remote]) (disk w')) w')
    end.

(** ostree_repo_remote_delete (repo, remote, NULL, NULL): the call is made
    with a NULL error location and its result is not looked at; what it
    does to the repository, also when it fails, is the engine's. *)
Definition remote_delete (remote : string) (w : World) : World :=
  record (ostree_repo_remote_delete remote) w.

(** flatpak_dir_lock (dir_clone, &lock, ...) and the explicit
    glnx_release_lock_file (&lock). *)
Definition dir_lock : Tx unit :=
  λ w,
    match fails E flatpak_dir_lock with
    | Some e => (Err e, log flatpak_dir_lock w)
    | None => (Ok (), set_lock true (log flatpak_dir_lock w))
    end.

Definition release_lock_file : Tx unit :=
  λ w, (Ok (), set_lock false (log glnx_release_lock_file w)).

Definition undeploy_all (ref : string) : Tx bool :=
  call (flatpak_dir_undeploy_all ref);;
  mret (was_deployed E ref).

Definition is_error {A} (r : outcome A) : bool :=
  match r with
  | Ok _ => false
  | _ => true
  end.

(** flatpak_installation_install_bundle *)
Definition flatpak_installation_install_bundle (file : string) : Tx FlatpakInstalledRef :=
  bundle ← lift (of_sum (flatpak_bundle_load E file));
  let ref := bundle_ref bundle in
  let origin := bundle_origin bundle in
  let gpg_data := bundle_gpg_data bundle in
  '(_, parts_1, _, parts_3) ← lift (of_sum (flatpak_decompose_ref E ref));
  deploy_base ← read (λ d, deploy_base_exists d ref);
  if deploy_base : bool then
    throw {| code := FLATPAK_ERROR_ALREADY_INSTALLED;
             message := parts_1 +:+ " branch " +:+ parts_3 +:+ " already installed" |}
  else
    let basename := g_file_get_basename E file in
    remote ← create_origin_remote origin parts_1 basename gpg_data;
    goto_out
      (call flatpak_dir_ensure_repo;;
       call (flatpak_pull_from_bundle file remote ref (bool_decide (gpg_data ≠ None)));;
       call (flatpak_dir_deploy_install ref remote);;
       d ← read id;
       lift (get_ref d ref))
      (λ result w, if is_error result then remote_delete remote w else w).

(** The label "out" of install and update. *)
Definition out_progress {A} (progress : bool) (_ : outcome A) (w : World) : World :=
  let w := log g_main_context_pop_thread_default w in
  if progress then log ostree_async_progress_finish w else w.

(** flatpak_installation_install; [progress] says whether the caller
    passed a callback. *)
Definition flatpak_installation_install (remote_name : string) (kind : FlatpakRefKind)
    (name : string) (arch branch : option string) (progress : bool)
  : Tx FlatpakInstalledRef :=
  ref ← lift (of_sum (flatpak_compose_ref E (bool_decide (kind = FLATPAK_REF_KIND_APP))
                        name branch arch));
  deploy_base ← read (λ d, deploy_base_exists d ref);
  if deploy_base : bool then
    throw {| code := FLATPAK_ERROR_ALREADY_INSTALLED;
             message := name +:+ " branch " +:+ default "master" branch
                          +:+ " already installed" |}
  else
    goto_out
      (local_call g_main_context_push_thread_default;;
       call_with_progress progress (flatpak_dir_install ref remote_name);;
       d ← read id;
       lift (get_ref d ref))
      (out_progress progress).

(** flatpak_installation_update *)
Definition flatpak_installation_update (flags : Z) (kind : FlatpakRefKind)
    (name : string) (arch branch : option string) (progress : bool)
  : Tx FlatpakInstalledRef :=
  ref ← lift (of_sum (flatpak_compose_ref E (bool_decide (kind = FLATPAK_REF_KIND_APP))
                        name branch arch));
  deploy_base ← read (λ d, deploy_base_exists d ref);
  if negb deploy_base then
    throw {| code := FLATPAK_ERROR_NOT_INSTALLED;
             message := name +:+ " branch " +:+ default "master" branch
                          +:+ " is not installed" |}
  else
    origin ← read (λ d, get_origin d ref);
    remote_name ← lift (of_sum origin);
    subpaths_res ← read (λ d, get_subpaths d ref);
    subpaths ← lift (of_sum subpaths_res);
    goto_out
      (local_call g_main_context_push_thread_default;;
       call_with_progress progress
         (flatpak_dir_update
            (bool_decide (Z.land flags (FLATPAK_UPDATE_FLAGS_NO_PULL E) ≠ 0))
            (bool_decide (Z.land flags (FLATPAK_UPDATE_FLAGS_NO_DEPLOY E) ≠ 0))
            remote_name ref subpaths);;
       d ← read id;
       lift (get_ref d ref))
      (out_progress progress).

(** flatpak_installation_uninstall *)
Definition flatpak_installation_uninstall (kind : FlatpakRefKind)
    (name : string) (arch branch : option string) : Tx unit :=
  g_auto_lock
    (ref ← lift (of_sum (flatpak_compose_ref E (bool_decide (kind = FLATPAK_REF_KIND_APP))
                           name branch arch));
     dir_lock;;
     deploy_base ← read (λ d, deploy_base_exists d ref);
     if negb deploy_base then
       throw {| code := FLATPAK_ERROR_NOT_INSTALLED;
                message := name +:+ " branch " +:+ default "master" branch
                             +:+ " is not installed" |}
     else
       origin ← read (λ d, get_origin d ref);
       remote_name ← lift (of_sum origin);
       call (flatpak_dir_set_active ref);;
       (if decide (kind = FLATPAK_REF_KIND_APP) then
          current_ref ← read (λ d, current_ref d (Some name));
          if decide (current_ref = Some ref)
          then call (flatpak_dir_drop_current_ref name)
          else mret ()
        else mret ());;
       was_deployed ← undeploy_all ref;
       call (flatpak_dir_remove_ref remote_name ref);;
       release_lock_file;;
       call flatpak_dir_prune;;
       call_ignoring_error flatpak_dir_cleanup_removed;;
       (if decide (kind = FLATPAK_REF_KIND_APP)
        then call (flatpak_dir_update_exports name)
        else mret ());;
       call flatpak_dir_mark_changed;;
       if negb was_deployed then
         throw {| code := FLATPAK_ERROR_NOT_INSTALLED;
                  message := name +:+ " branch " +:+ default "master" branch
                               +:+ " is not installed" |}
       else mret ()).

(** Modelled from the spec: flatpak_fail is in xdg-app-utils.c.  The error
    taxonomy gives a failing call a typed error and no state change:
    flatpak_fail stores a G_IO_ERROR_FAILED error with the given message
    and returns FALSE. *)
Definition flatpak_fail {A} (msg : string) : Tx A :=
  throw {| code := G_IO_ERROR_FAILED; message := msg |}.

(** flatpak_installation_fetch_remote_size_sync; a success would return
    the download size and the installed size. *)
Definition flatpak_installation_fetch_remote_size_sync (remote_name commit : string)
  : Tx (Z * Z) :=
  flatpak_fail "Deprecated function call flatpak_installation_fetch_remote_size_sync".

End Engine.

(** A transaction on a directory, from a process that holds no lock and
    has made no call yet. *)
Definition run {A} (tx : Tx A) (d : FlatpakDir) : outcome A * World :=
  tx {| disk := d; lock := false; calls := []; delivered := [] |}.

End Transactions.

(** ** The percentage printed in the "Receiving objects" line *)

Module CDouble.

(** The quotient num / den rounded to the nearest integer, ties to the
    even one. *)
Definition round_half_even (num den : Z) : Z :=
  let q := num / den in
  let r := num mod den in
  if 2 * r <? den then q
  else if den <? 2 * r then q + 1
  else if Z.even q then q else q + 1.

(** The binary64 number nearest to num / den for positive num and den, as
    a mantissa of 53 bits and an exponent: the rounding of every double
    operation (the values that occur here are far from the ends of the
    exponent range). *)
Definition nearest (num den : Z) : Z * Z :=
  let k := Z.log2 num - Z.log2 den in
  let below := if 0 <=? k then num <? den * 2 ^ k else num * 2 ^ (- k) <? den in
  let e := (if below then k - 1 else k) - 52 in
  (if 0 <=? e then round_half_even num (den * 2 ^ e)
   else round_half_even (num * 2 ^ (- e)) den, e).

(** (guint) ((((double) fetched) / requested) * 100): the two counters
    convert exactly, the quotient is rounded, the product with 100 is
    rounded again, and the conversion to guint takes the integral
    part. *)
Definition percent (fetched requested : Z) : Z :=
  if orb (fetched <=? 0) (requested <=? 0) then 0 else
  let '(m, e) := nearest fetched requested in
  let '(m2, e2) := nearest (m * 100 * 2 ^ Z.max e 0) (2 ^ Z.max (- e) 0) in
  if 0 <=? e2 then m2 * 2 ^ e2 else m2 / 2 ^ (- e2).

End CDouble.

(** ** A small installation

    The scenario of the spec: the app org.example.Foo, installed from
    test-remote at commit abc123, which the remote now advertises at
    def456; next to it a runtime and a remote that cannot be reached. *)

Module Scenario.
Import Progress Transactions.

(** A pull that has been running for half a second with one fetch
    outstanding. *)
Definition first_second : OstreeAsyncProgress :=
  {| status := None;
     outstanding_fetches := 1;
     outstanding_metadata_fetches := 1;
     outstanding_writes := 0;
     scanned_metadata := 3;
     fetched_delta_parts := 0;
     total_delta_parts := 0;
     total_delta_part_size := 0;
     bytes_transferred := 4096;
     fetched := 0;
     metadata_fetched := 1;
     requested := 2;
     start_time := 5000000;
     monotonic_time := 5500000 |}.

(** Two seconds into a pull: objects arriving, then a metadata scan in
    between, then most objects fetched. *)
Definition receiving (fetched requested metadata_fetches : Z) : OstreeAsyncProgress :=
  {| status := None;
     outstanding_fetches := 1;
     outstanding_metadata_fetches := metadata_fetches;
     outstanding_writes := 0;
     scanned_metadata := 3;
     fetched_delta_parts := 0;
     total_delta_parts := 0;
     total_delta_part_size := 0;
     bytes_transferred := 4096;
     fetched := fetched;
     metadata_fetched := 1;
     requested := requested;
     start_time := 5000000;
     monotonic_time := 7000000 |}.

Definition pull_signals : list OstreeAsyncProgress :=
  [receiving 5 10 0; receiving 5 10 1; receiving 8 10 0].

Definition foo : string := "app/org.example.Foo/x86_64/master".
Definition baz : string := "app/org.example.Baz/x86_64/master".
Definition bar_bundle : Bundle :=
  {| bundle_ref := "app/org.example.Bar/x86_64/master";
     bundle_origin := Some "http://example.org/repo";
     bundle_gpg_data := None;
     bundle_checksum := "77aa" |}.
Definition platform : string := "runtime/org.example.Platform/x86_64/master".

Definition unreachable : GError :=
  {| code := OTHER_ERROR 1 2; message := "Could not connect" |}.

Definition dir : FlatpakDir :=
  {| remotes := ["test-remote"; "broken-remote"];
     list_remotes_error := None;
     list_remote_refs := λ remote,
       if decide (remote = "test-remote")
       then inr [(foo, "def456"); (platform, "0a1b2c")]
       else inl unreachable;
     list_refs := λ kind, inr (if decide (kind = "app") then [foo] else [platform]);
     deploy_base_exists := λ ref, bool_decide (ref = foo ∨ ref = platform);
     deploy_dir := λ ref, "/var/lib/xdg-app/" +:+ ref;
     deploy_data := λ ref,
       if decide (ref = foo)
       then Some {| dd_origin := "test-remote"; dd_commit := "abc123";
                    dd_subpaths := []; dd_installed_size := 1024 |}
       else if decide (ref = platform)
       then Some {| dd_origin := "test-remote"; dd_commit := "0a1b2c";
                    dd_subpaths := []; dd_installed_size := 4096 |}
       else None;
     current_ref := λ name,
       if decide (name = Some "org.example.Foo") then Some foo else None;
     read_latest := λ origin ref,
       if decide (ref = foo) then Some "abc123"
       else if decide (ref = platform) then Some "0a1b2c" else None;
     get_origin := λ ref, inr "test-remote";
     get_subpaths := λ ref, inr [];
     if_deployed := λ ref, bool_decide (ref = foo ∨ ref = platform) |}.

Definition remote_ref_new (refspec checksum remote : string) : option FlatpakRemoteRef :=
  Some {| remote_ref := refspec; remote_commit := checksum; remote_name := remote |}.

Definition foo_snapshot : FlatpakInstalledRef :=
  flatpak_installed_ref_new foo "abc123" (Some "abc123") "test-remote" []
    ("/var/lib/xdg-app/" +:+ foo +:+ "/abc123") 1024 true.

Definition platform_snapshot : FlatpakInstalledRef :=
  flatpak_installed_ref_new platform "0a1b2c" (Some "0a1b2c") "test-remote" []
    ("/var/lib/xdg-app/" +:+ platform +:+ "/0a1b2c") 4096 false.

Definition disk_full : GError :=
  {| code := OTHER_ERROR 1 12; message := "No space left on device" |}.

(** The directory after [commit] of [ref] has been deployed from
    [remote]. *)
Definition deploy (ref remote commit : string) (d : FlatpakDir) : FlatpakDir :=
  {| remotes := remotes d;
     list_remotes_error := list_remotes_error d;
     list_remote_refs := list_remote_refs d;
     list_refs := list_refs d;
     deploy_base_exists := λ r, bool_decide (r = ref) || deploy_base_exists d r;
     deploy_dir := deploy_dir d;
     deploy_data := λ r,
       if decide (r = ref)
       then Some {| dd_origin := remote; dd_commit := commit;
                    dd_subpaths := []; dd_installed_size := 2048 |}
       else deploy_data d r;
     current_ref := current_ref d;
     read_latest := λ origin r,
       if decide (r = ref) then Some commit else read_latest d origin r;
     get_origin := get_origin d;
     get_subpaths := get_subpaths d;
     if_deployed := λ r, bool_decide (r = ref) || if_deployed d r |}.

(** An engine in which exactly the steps picked out by [failing] fail. *)
Definition engine (failing : step → bool) (undeployed : bool) : Engine :=
  {| flatpak_compose_ref := λ app name branch arch,
       inr ((if app then "app" else "runtime") +:+ "/" +:+ name +:+ "/"
              +:+ default "x86_64" arch +:+ "/" +:+ default "master" branch);
     flatpak_decompose_ref := λ ref,
       match GStr.g_strsplit ref with
       | [kind; name; arch; branch] => inr (kind, name, arch, branch)
       | _ => inl {| code := G_IO_ERROR_FAILED; message := "Wrong number of components" |}
       end;
     flatpak_bundle_load := λ file, inr bar_bundle;
     g_file_get_basename := λ file, file;
     origin_remote := λ origin id title, inr (id +:+ "-origin");
     fails := λ s, if failing s then Some disk_full else None;
     effect := λ s d,
       match s with
       | flatpak_dir_install ref remote =>
         if failing s then d else deploy ref remote "def456" d
       | flatpak_dir_deploy_install ref remote =>
         if failing s then d else deploy ref remote "77aa" d
       | ostree_repo_remote_delete remote =>
         if failing s then d
         else set_remotes (filter (λ r, r ≠ remote) (remotes d)) d
       | _ => d
       end;
     was_deployed := λ ref, undeployed;
     signals := λ s,
       match s with
       | flatpak_dir_install _ _ => pull_signals
       | _ => []
       end;
     g_format_size := λ n, pretty n +:+ " bytes";
     g_format_size_full := λ n, pretty n +:+ " bytes";
     double_percent := CDouble.percent;
     FLATPAK_UPDATE_FLAGS_NO_PULL := 2;
     FLATPAK_UPDATE_FLAGS_NO_DEPLOY := 1 |}.

Definition all_is_well : Engine := engine (λ s, false) true.

Definition deploy_fails : Engine :=
  engine (λ s, match s with flatpak_dir_deploy_install _ _ => true | _ => false end) true.

Definition nothing_deployed : Engine := engine (λ s, false) false.

(** The deploy fails, and then the deletion of the remote fails too. *)
Definition delete_fails : Engine :=
  engine (λ s, match s with
               | flatpak_dir_deploy_install _ _ | ostree_repo_remote_delete _ => true
               | _ => false
               end) true.

End Scenario.

(** ** Further parts of the file

    The lookups of the installation API that the listing above leaves
    out, and the vocabulary used to state what the callback and the
    transactions do. *)

Module ProgressConditions.
Import CInt Progress.

(** The snapshots on which progress_cb divides by zero: no status string,
    a fetch outstanding, and a zero divisor on the path taken. *)
Definition divides_by_zero (p : OstreeAsyncProgress) : Prop :=
  status p = None ∧ outstanding_fetches p ≠ 0
  ∧ (ellapsed_time p = 0
     ∨ (total_delta_parts p > 0 ∧ total_delta_part_size p = 0)
     ∨ (¬ total_delta_parts p > 0 ∧ outstanding_metadata_fetches p = 0
        ∧ requested p = 0)).

(** The counter that the percent is computed from stays below its total,
    and its product with 100 fits the width it is computed in: the bytes of
    the delta parts when there are delta parts, the fetched objects
    otherwise. *)
Definition within_totals (p : OstreeAsyncProgress) : Prop :=
  (total_delta_parts p > 0 →
   0 ≤ bytes_transferred p ≤ total_delta_part_size p
   ∧ 100 * bytes_transferred p < 2 ^ 64)
  ∧ (¬ total_delta_parts p > 0 →
     0 ≤ fetched p ≤ requested p ∧ 100 * fetched p < 2 ^ 32).

(** The datum left on the progress object after a list of reports. *)
Definition last_percent (last_progress : Z) (rs : list report) : Z :=
  default last_progress (last (percents rs)).

End ProgressConditions.

Module Lookup.
Import Query UpdateDiff.

(** Whether a string contains the '/' that separates the parts of a
    ref. *)
Fixpoint has_slash (s : string) : bool :=
  match s with
  | EmptyString => false
  | String a s' => bool_decide (a = "/"%char) || has_slash s'
  end.

(** The loop of flatpak_installation_get_remote_by_name over the names. *)
Fixpoint find_remote (name : string) (remote_names : list string) : option string :=
  match remote_names with
  | [] => None
  | remote_name :: rest =>
    if decide (remote_name = name) then Some remote_name else find_remote name rest
  end.

(** flatpak_installation_get_remote_by_name; as in the listing, a
    FlatpakRemote is given by its name. *)
Definition flatpak_installation_get_remote_by_name (d : FlatpakDir) (name : string)
  : outcome string :=
  match flatpak_dir_list_remotes d with
  | inl e => Err e
  | inr remote_names =>
    match find_remote name remote_names with
    | Some remote => Ok remote
    | None => Err {| code := G_IO_ERROR_NOT_FOUND;
                     message := "No remote named '" +:+ name +:+ "'" |}
    end
  end.

(** g_hash_table_lookup on the table that flatpak_dir_list_remote_refs
    filled (its keys are distinct). *)
Fixpoint g_hash_table_lookup (ht : list (string * string)) (key : string) : option string :=
  match ht with
  | [] => None
  | (k, v) :: rest => if decide (k = key) then Some v else g_hash_table_lookup rest key
  end.

Section Refs.

(** flatpak_get_arch, flatpak_build_app_ref (name, branch, arch) and
    flatpak_build_runtime_ref (name, branch, arch) of xdg-app-utils.c,
    and flatpak_remote_ref_new as before. *)
Variable flatpak_get_arch : string.
Variable flatpak_build_app_ref : string → option string → option string → string.
Variable flatpak_build_runtime_ref : string → option string → option string → string.
Variable flatpak_remote_ref_new : string → string → string → option FlatpakRemoteRef.

(** flatpak_installation_get_installed_ref *)
Definition flatpak_installation_get_installed_ref (d : FlatpakDir) (kind : FlatpakRefKind)
    (name : string) (arch branch : option string) : outcome FlatpakInstalledRef :=
  let arch := match arch with
              | None => Some flatpak_get_arch
              | Some a => Some a
              end in
  let ref := if decide (kind = FLATPAK_REF_KIND_APP)
             then flatpak_build_app_ref name branch arch
             else flatpak_build_runtime_ref name branch arch in
  if if_deployed d ref then get_ref d ref
  else Err {| code := G_IO_ERROR_NOT_FOUND;
              message := "Ref " +:+ ref +:+ " no installed" |}.

(** flatpak_installation_fetch_remote_ref_sync.  The result of
    flatpak_remote_ref_new is returned as it is, NULL included. *)
Definition flatpak_installation_fetch_remote_ref_sync (d : FlatpakDir)
    (remote_name : string) (kind : FlatpakRefKind) (name : string)
    (arch branch : option string) : outcome (option FlatpakRemoteRef) :=
  let branch := match branch with
                | None => "master"
                | Some b => b
                end in
  match list_remote_refs d remote_name with
  | inl e => Err e
  | inr ht =>
    let ref := if decide (kind = FLATPAK_REF_KIND_APP)
               then flatpak_build_app_ref name (Some branch) arch
               else flatpak_build_runtime_ref name (Some branch) arch in
    match g_hash_table_lookup ht ref with
    | Some checksum => Ok (flatpak_remote_ref_new ref checksum remote_name)
    | None => Err {| code := G_IO_ERROR_NOT_FOUND;
                     message := "Reference " +:+ ref +:+ " doesn't exist in remote"
                                  +:+ newline |}
    end
  end.

End Refs.

End Lookup.

Module Plans.
Import Transactions.

#[global] Instance step_eq_dec : EqDecision step.
Proof. solve_decision. Defined.

(** The steps of a complete uninstall, in the order of the source; [drop]
    says whether the current ref was this ref. *)
Definition uninstall_plan (kind : FlatpakRefKind) (name ref remote_name : string)
    (drop : bool) : list step :=
  [flatpak_dir_lock; flatpak_dir_set_active ref]
  ++ (if drop then [flatpak_dir_drop_current_ref name] else [])
  ++ [flatpak_dir_undeploy_all ref; flatpak_dir_remove_ref remote_name ref;
      glnx_release_lock_file; flatpak_dir_prune; flatpak_dir_cleanup_removed]
  ++ (if decide (kind = FLATPAK_REF_KIND_APP)
      then [flatpak_dir_update_exports name] else [])
  ++ [flatpak_dir_mark_changed].

(** The steps of a complete install or update around the one call [s] of
    the engine. *)
Definition pull_plan (s : step) (progress : bool) : list step :=
  [g_main_context_push_thread_default; s; g_main_context_pop_thread_default]
  ++ (if progress then [ostree_async_progress_finish] else []).

(** The engine [E] with the outcome of the step [s0] replaced by [o]. *)
Definition with_outcome (s0 : step) (o : option GError) (E : Engine) : Engine :=
  {| flatpak_compose_ref := flatpak_compose_ref E;
     flatpak_decompose_ref := flatpak_decompose_ref E;
     flatpak_bundle_load := flatpak_bundle_load E;
     g_file_get_basename := g_file_get_basename E;
     origin_remote := origin_remote E;
     fails := λ s, if decide (s = s0) then o else fails E s;
     effect := effect E;
     was_deployed := was_deployed E;
     signals := signals E;
     g_format_size := g_format_size E;
     g_format_size_full := g_format_size_full E;
     double_percent := double_percent E;
     FLATPAK_UPDATE_FLAGS_NO_PULL := FLATPAK_UPDATE_FLAGS_NO_PULL E;
     FLATPAK_UPDATE_FLAGS_NO_DEPLOY := FLATPAK_UPDATE_FLAGS_NO_DEPLOY E |}.

(** The steps of a log, without the lock states. *)
Definition steps (calls : list (step * bool)) : list step := calls.*1.

(** The deletions of a remote in a log. *)
Definition deletes (remote : string) (calls : list (step * bool)) : Prop :=
  ostree_repo_remote_delete remote ∈ steps calls.

End Plans.

(** ** More of the small installation *)

Module Fixtures.
Import Progress Transactions.

(** A snapshot with a status string set by the engine. *)
Definition with_status : OstreeAsyncProgress :=
  {| status := Some "Pulling from test-remote";
     outstanding_fetches := 1;
     outstanding_metadata_fetches := 0;
     outstanding_writes := 0;
     scanned_metadata := 0;
     fetched_delta_parts := 0;
     total_delta_parts := 0;
     total_delta_part_size := 0;
     bytes_transferred := 0;
     fetched := 0;
     metadata_fetched := 0;
     requested := 0;
     start_time := 5000000;
     monotonic_time := 5000000 |}.

(** The installation with no remote in reach. *)
Definition offline : FlatpakDir :=
  {| remotes := remotes Scenario.dir;
     list_remotes_error := None;
     list_remote_refs := λ remote, inl Scenario.unreachable;
     list_refs := list_refs Scenario.dir;
     deploy_base_exists := deploy_base_exists Scenario.dir;
     deploy_dir := deploy_dir Scenario.dir;
     deploy_data := deploy_data Scenario.dir;
     current_ref := current_ref Scenario.dir;
     read_latest := read_latest Scenario.dir;
     get_origin := get_origin Scenario.dir;
     get_subpaths := get_subpaths Scenario.dir;
     if_deployed := if_deployed Scenario.dir |}.

Definition arch : string := "x86_64".

Definition build_app_ref (name : string) (branch arch : option string) : string :=
  "app/" +:+ name +:+ "/" +:+ default "x86_64" arch +:+ "/" +:+ default "master" branch.

Definition build_runtime_ref (name : string) (branch arch : option string) : string :=
  "runtime/" +:+ name +:+ "/" +:+ default "x86_64" arch +:+ "/" +:+ default "master" branch.

Definition foo_deploy : DeployData :=
  {| dd_origin := "test-remote"; dd_commit := "abc123";
     dd_subpaths := []; dd_installed_size := 1024 |}.

Definition lock_is_busy : Engine :=
  Scenario.engine (λ s, match s with flatpak_dir_lock => true | _ => false end) true.

End Fixtures.

(** * Properties *)

(** ** Machine integers *)

Module CIntFacts.
Import CInt.

Lemma udiv_zero a : udiv a 0 = None.
Proof. reflexivity. Qed.

Lemma udiv_nonzero a b : b ≠ 0 → udiv a b = Some (a / b).
Proof. intros Hb. unfold udiv. by rewrite decide_False. Qed.

Lemma udiv_is_Some a b : is_Some (udiv a b) ↔ b ≠ 0.
Proof.
  unfold udiv. destruct (decide (b = 0)) as [->|Hb]; split.
  - intros [q Hq]. discriminate.
  - intros H. by destruct H.
  - done.
  - by eexists.
Qed.

End CIntFacts.

(** ** The progress callback *)

Module ProgressFacts.
Import CInt Progress.

Section Callback.

Variable g_format_size : Z → string.
Variable g_format_size_full : Z → string.
Variable double_percent : Z → Z → Z.

Local Abbreviation compute_progress := (compute_progress g_format_size g_format_size_full double_percent).
Local Abbreviation progress_cb := (progress_cb g_format_size g_format_size_full double_percent).
Local Abbreviation emit := (emit g_format_size g_format_size_full double_percent).

(** The clamp, as one equation: the reported percent is the larger of the
    computed one and the last reported one, and it is what is stored. *)
Lemma progress_cb_max last p buf n est :
  compute_progress p = Some (buf, n, est) →
  progress_cb last p
  = Some ({| text := buf; percent := Z.max n last; estimating := est |}, Z.max n last).
Proof.
  intros Hc. unfold Progress.progress_cb. rewrite Hc. simpl.
  destruct (decide (n < last)).
  - by rewrite Z.max_r by lia.
  - by rewrite Z.max_l by lia.
Qed.

Lemma progress_cb_inv last p r last' :
  progress_cb last p = Some (r, last') →
  percent r = last' ∧ last ≤ last'.
Proof.
  unfold Progress.progress_cb.
  destruct (compute_progress p) as [[[buf n] est]|]; simpl; [|discriminate].
  intros [= <- <-]. simpl. split; [done|].
  destruct (decide (n < last)); lia.
Qed.

(** Every report of a run is at least the datum the run started from. *)
Lemma emit_lower_bound ps : ∀ last, Forall (λ x, last ≤ x) (percents (emit last ps).1).
Proof.
  induction ps as [|p ps IH]; intros last; simpl; [constructor|].
  destruct (progress_cb last p) as [[r last']|] eqn:Hcb; simpl; [|constructor].
  apply progress_cb_inv in Hcb as [Hr Hle].
  specialize (IH last'). destruct (emit last' ps) as [rs fin]. simpl in *.
  constructor; [lia|].
  eapply Forall_impl; [exact IH|]. simpl. intros; lia.
Qed.

Lemma emit_sorted ps : ∀ last, StronglySorted Z.le (percents (emit last ps).1).
Proof.
  induction ps as [|p ps IH]; intros last; simpl; [constructor|].
  destruct (progress_cb last p) as [[r last']|] eqn:Hcb; simpl; [|constructor].
  apply progress_cb_inv in Hcb as [Hr Hle].
  pose proof (emit_lower_bound ps last') as Hlb. specialize (IH last').
  destruct (emit last' ps) as [rs fin]. simpl in *.
  constructor; [done|]. by rewrite Hr.
Qed.

(** A division by zero is the only way for the callback to have no
    result, and the division by the elapsed seconds comes first. *)
Lemma compute_progress_elapsed_zero p :
  status p = None → outstanding_fetches p ≠ 0 → ellapsed_time p = 0 →
  compute_progress p = None.
Proof.
  intros Hs Hf He. unfold Progress.compute_progress. rewrite Hs.
  rewrite decide_True by done. by rewrite He.
Qed.

Lemma progress_cb_elapsed_zero last p :
  status p = None → outstanding_fetches p ≠ 0 → ellapsed_time p = 0 →
  progress_cb last p = None.
Proof.
  intros Hs Hf He. unfold Progress.progress_cb.
  by rewrite compute_progress_elapsed_zero.
Qed.

End Callback.

(** After the first second a rate below one byte per second is shown
    as "-". *)
Example progress_cb_dash (g_format_size g_format_size_full : Z → string)
    (double_percent : Z → Z → Z) :
  text <$> (fst <$> progress_cb g_format_size g_format_size_full double_percent 0
                      {| status := None;
                         outstanding_fetches := 1;
                         outstanding_metadata_fetches := 1;
                         outstanding_writes := 0;
                         scanned_metadata := 0;
                         fetched_delta_parts := 0;
                         total_delta_parts := 0;
                         total_delta_part_size := 0;
                         bytes_transferred := 0;
                         fetched := 0;
                         metadata_fetched := 0;
                         requested := 0;
                         start_time := 5000000;
                         monotonic_time := 7000000 |})
  = Some ("Receiving metadata objects: 0/(estimating) -/s " +:+ g_format_size_full 0).
Proof. reflexivity. Qed.

(** C3 (the code departs from the claim): with a fetch outstanding and
    zero elapsed seconds the callback evaluates
    [bytes_transferred / ellapsed_time] before it looks at the quotient,
    so it has no result and shows no rate at all. *)
Theorem progress_cb_first_second_undefined
    (g_format_size g_format_size_full : Z → string) (double_percent : Z → Z → Z)
    (last_progress : Z) :
  ellapsed_time Scenario.first_second = 0
  ∧ outstanding_fetches Scenario.first_second ≠ 0
  ∧ progress_cb g_format_size g_format_size_full double_percent last_progress
      Scenario.first_second
    = None.
Proof. repeat split; done. Qed.

End ProgressFacts.

(** ** Deployment query *)

Module QueryFacts.
Import Query.

Example g_strsplit_ref :
  GStr.g_strsplit Scenario.foo = ["app"; "org.example.Foo"; "x86_64"; "master"].
Proof. reflexivity. Qed.

Example g_strsplit_empty : GStr.g_strsplit "" = [].
Proof. reflexivity. Qed.

Example g_strsplit_empty_pieces : GStr.g_strsplit "a//b/" = ["a"; ""; "b"; ""].
Proof. reflexivity. Qed.

Example get_ref_app : get_ref Scenario.dir Scenario.foo = Ok Scenario.foo_snapshot.
Proof. vm_compute. reflexivity. Qed.

Example get_ref_runtime :
  get_ref Scenario.dir Scenario.platform = Ok Scenario.platform_snapshot.
Proof. vm_compute. reflexivity. Qed.

Example get_ref_not_deployed : get_ref Scenario.dir Scenario.baz = Crash.
Proof. vm_compute. reflexivity. Qed.

Lemma get_ref_inv d full_ref r :
  get_ref d full_ref = Ok r →
  ∃ dd parts_0,
    deploy_data d full_ref = Some dd
    ∧ GStr.g_strsplit full_ref !! 0%nat = Some parts_0
    ∧ installed_ref r = full_ref
    ∧ installed_commit r = dd_commit dd
    ∧ installed_origin r = dd_origin dd
    ∧ latest_commit r = read_latest d (dd_origin dd) full_ref
    ∧ is_current r =
        (if decide (parts_0 = "app") then
           match current_ref d (GStr.g_strsplit full_ref !! 1%nat) with
           | Some current => bool_decide (full_ref = current)
           | None => false
           end
         else false).
Proof.
  unfold get_ref. intros H.
  destruct (deploy_data d full_ref) as [dd|]; simpl in H; [|discriminate].
  destruct (GStr.g_strsplit full_ref !! 0%nat) as [p0|]; simpl in H; [|discriminate].
  injection H as <-. exists dd, p0. simpl. done.
Qed.

Lemma ref_kind_app full_ref :
  ref_kind full_ref = Some FLATPAK_REF_KIND_APP
  ↔ GStr.g_strsplit full_ref !! 0%nat = Some "app".
Proof.
  unfold ref_kind. destruct (GStr.g_strsplit full_ref !! 0%nat) as [p0|]; [|done].
  destruct (decide (p0 = "app")) as [->|Hne]; [done|].
  destruct (decide (p0 = "runtime")) as [->|Hne']; [done|].
  split; [|congruence]. intros H. exfalso.
  repeat (destruct p0 as [|[[] [] [] [] [] [] [] []] p0]; try discriminate H; try done).
Qed.

Lemma get_refs_inv d raw : ∀ rs,
  get_refs d raw = Ok rs → Forall2 (λ full_ref r, get_ref d full_ref = Ok r) raw rs.
Proof.
  induction raw as [|full_ref raw IH]; intros rs; simpl.
  - intros [= <-]. constructor.
  - destruct (get_ref d full_ref) as [r| |] eqn:Hr; simpl; try discriminate.
    destruct (get_refs d raw) as [rs'| |]; simpl; try discriminate.
    intros [= <-]. constructor; [done|]. by apply IH.
Qed.

(** C6: in a snapshot built by get_ref, is_current holds exactly when the
    ref is of kind app and the current-ref pointer of its name is this very
    ref string; for a ref of kind runtime it never holds. *)
Theorem get_ref_is_current d full_ref r :
  get_ref d full_ref = Ok r →
  (is_current r = true
   ↔ ref_kind full_ref = Some FLATPAK_REF_KIND_APP
     ∧ current_ref d (ref_name full_ref) = Some full_ref)
  ∧ (ref_kind full_ref = Some FLATPAK_REF_KIND_RUNTIME → is_current r = false).
Proof.
  intros H. apply get_ref_inv in H as (dd & p0 & _ & Hp0 & _ & _ & _ & _ & Hcur).
  rewrite Hcur. unfold ref_name. split.
  - rewrite ref_kind_app, Hp0. destruct (decide (p0 = "app")) as [->|Hne].
    + destruct (current_ref d (GStr.g_strsplit full_ref !! 1%nat)) as [cur|].
      * rewrite bool_decide_eq_true. split; [intros ->; done|].
        intros [_ [= ->]]. done.
      * split; [done|]. by intros [_ ?].
    + split; [done|]. intros [[= ->] _]. done.
  - unfold ref_kind. rewrite Hp0. intros Hk.
    destruct (decide (p0 = "app")) as [->|Hne]; [discriminate|done].
Qed.

Lemma get_ref_is_current_witness :
  (is_current Scenario.foo_snapshot = true
   ↔ ref_kind Scenario.foo = Some FLATPAK_REF_KIND_APP
     ∧ current_ref Scenario.dir (ref_name Scenario.foo) = Some Scenario.foo)
  ∧ (ref_kind Scenario.foo = Some FLATPAK_REF_KIND_RUNTIME
     → is_current Scenario.foo_snapshot = false).
Proof.
  apply (get_ref_is_current Scenario.dir Scenario.foo Scenario.foo_snapshot).
  vm_compute. reflexivity.
Defined.

End QueryFacts.

(** ** Update-diff listing *)

Module UpdateDiffFacts.
Import Query UpdateDiff.

Section Listing.

Variable flatpak_remote_ref_new : string → string → string → option FlatpakRemoteRef.

Local Abbreviation list_remote_refs_sync :=
  (flatpak_installation_list_remote_refs_sync flatpak_remote_ref_new).
Local Abbreviation scan_remote := (scan_remote flatpak_remote_ref_new).
Local Abbreviation scan_remotes := (scan_remotes flatpak_remote_ref_new).
Local Abbreviation list_for_update :=
  (flatpak_installation_list_installed_refs_for_update flatpak_remote_ref_new).
Local Abbreviation advertised := (advertised flatpak_remote_ref_new).

(** *** The last loop is a filter that keeps the order *)

Lemma collect_updates_filter ht installed : ∀ updates,
  collect_updates ht installed updates
  = updates ++ List.filter (needs_update ht) installed.
Proof.
  induction installed as [|x installed IH]; intros updates; simpl.
  - by rewrite app_nil_r.
  - rewrite IH. destruct (needs_update ht x); [|done].
    by rewrite <- app_assoc.
Qed.

Lemma needs_update_true ht x :
  needs_update ht x = true
  ↔ ∃ c, ht !! update_key (installed_origin x) (installed_ref x) = Some c
         ∧ Some c ≠ latest_commit x.
Proof.
  unfold needs_update, installed_format_ref, differs.
  destruct (ht !! update_key (installed_origin x) (installed_ref x)) as [c|].
  - rewrite bool_decide_eq_true. split.
    + intros H. by exists c.
    + by intros (c' & [= <-] & H).
  - split; [done|]. by intros (c & ? & _).
Qed.

(** *** Keys

    The table is keyed by one string.  For remote names without a colon
    the key determines the remote and the ref, so the table is a map on
    the pairs of an origin and a ref string. *)

Lemma update_key_inj r1 : ∀ r2 f1 f2,
  has_colon r1 = false → has_colon r2 = false →
  update_key r1 f1 = update_key r2 f2 → r1 = r2 ∧ f1 = f2.
Proof.
  unfold update_key.
  induction r1 as [|a r1 IH]; intros [|b r2] f1 f2; simpl; intros H1 H2 Heq.
  all: cbv [String.append] in Heq; fold String.append in Heq.
  - by injection Heq as ->.
  - injection Heq as <- _. by rewrite bool_decide_true in H2.
  - injection Heq as -> _. by rewrite bool_decide_true in H1.
  - injection Heq as -> Heq.
    apply orb_false_iff in H1 as [_ H1]. apply orb_false_iff in H2 as [_ H2].
    destruct (IH r2 f1 f2 H1 H2 Heq) as [-> ->]. done.
Qed.

(** *** The table only depends on the remotes that could be listed *)

Lemma list_remote_refs_sync_failed d remote e :
  list_remote_refs d remote = inl e → list_remote_refs_sync d remote = inl e.
Proof. intros H. unfold flatpak_installation_list_remote_refs_sync. by rewrite H. Qed.

Lemma scan_remote_failed d acc remote e :
  list_remote_refs d remote = inl e →
  scan_remote d acc remote
  = (acc.1, acc.2 ++ ["Update: Failed to read remote " +:+ remote +:+ ": "
                        +:+ message e +:+ newline]).
Proof.
  intros H. unfold UpdateDiff.scan_remote.
  by rewrite (list_remote_refs_sync_failed _ _ _ H).
Qed.

Lemma scan_remote_table d acc acc' remote :
  acc.1 = acc'.1 → (scan_remote d acc remote).1 = (scan_remote d acc' remote).1.
Proof.
  intros H. unfold UpdateDiff.scan_remote.
  destruct (list_remote_refs_sync d remote); simpl; by rewrite ?H.
Qed.

Lemma scan_table_irrel d rs : ∀ acc acc',
  acc.1 = acc'.1 → (foldl (scan_remote d) acc rs).1 = (foldl (scan_remote d) acc' rs).1.
Proof.
  induction rs as [|r rs IH]; intros acc acc' H; simpl; [done|].
  apply IH. by apply scan_remote_table.
Qed.

Lemma scan_remote_log_grows d acc remote line :
  line ∈ acc.2 → line ∈ (scan_remote d acc remote).2.
Proof.
  intros H. unfold UpdateDiff.scan_remote.
  destruct (list_remote_refs_sync d remote); simpl; [|done].
  apply elem_of_app. by left.
Qed.

Lemma scan_log_grows d rs : ∀ acc line,
  line ∈ acc.2 → line ∈ (foldl (scan_remote d) acc rs).2.
Proof.
  induction rs as [|r rs IH]; intros acc line H; simpl; [done|].
  apply IH. by apply scan_remote_log_grows.
Qed.

Lemma scan_skips_failed d l1 r l2 e acc :
  list_remote_refs d r = inl e →
  (foldl (scan_remote d) acc (l1 ++ r :: l2)).1 = (foldl (scan_remote d) acc (l1 ++ l2)).1
  ∧ ("Update: Failed to read remote " +:+ r +:+ ": " +:+ message e +:+ newline)
      ∈ (foldl (scan_remote d) acc (l1 ++ r :: l2)).2.
Proof.
  intros H. rewrite !foldl_app. simpl.
  rewrite (scan_remote_failed _ _ _ _ H). split.
  - by apply scan_table_irrel.
  - apply scan_log_grows. simpl. apply elem_of_app. right. by apply list_elem_of_singleton.
Qed.

(** *** What is in the table *)

Lemma insert_refs_lookup remote refs : ∀ ht k c,
  insert_refs remote refs ht !! k = Some c →
  ht !! k = Some c
  ∨ ∃ rr, rr ∈ refs ∧ k = update_key remote (remote_ref rr) ∧ c = remote_commit rr.
Proof.
  unfold insert_refs, remote_format_ref.
  induction refs as [|rr refs IH]; intros ht k c; simpl; [by left|].
  intros H. apply IH in H as [H|(rr' & Hin & Hk & Hc)].
  - destruct (decide (update_key remote (remote_ref rr) = k)) as [Heq|Hne].
    + rewrite <- Heq, lookup_insert_eq in H. injection H as <-.
      right. exists rr. split; [apply elem_of_cons; by left|done].
    + rewrite lookup_insert_ne in H by done. by left.
  - right. exists rr'. split; [apply elem_of_cons; by right|done].
Qed.

Lemma insert_refs_is_Some remote refs : ∀ ht k,
  is_Some (insert_refs remote refs ht !! k)
  ↔ is_Some (ht !! k) ∨ ∃ rr, rr ∈ refs ∧ k = update_key remote (remote_ref rr).
Proof.
  unfold insert_refs, remote_format_ref.
  induction refs as [|rr refs IH]; intros ht k; simpl.
  - split; [by left|]. intros [H|(rr & Hin & _)]; [done|]. by apply elem_of_nil in Hin.
  - rewrite IH. rewrite lookup_insert_is_Some. split.
    + intros [[H|[_ H]]|(rr' & Hin & Hk)].
      * right. exists rr. split; [apply elem_of_cons; by left|done].
      * by left.
      * right. exists rr'. split; [apply elem_of_cons; by right|done].
    + intros [H|(rr' & Hin & Hk)].
      * left. destruct (decide (update_key remote (remote_ref rr) = k)); [by left|by right].
      * apply elem_of_cons in Hin as [->|Hin].
        -- left. by left.
        -- right. by exists rr'.
Qed.

Lemma scan_is_Some d rs : ∀ acc k,
  is_Some ((foldl (scan_remote d) acc rs).1 !! k)
  ↔ is_Some (acc.1 !! k) ∨ advertised d rs k.
Proof.
  unfold UpdateDiff.advertised.
  induction rs as [|r rs IH]; intros acc k; simpl.
  - split; [by left|]. intros [H|(r & ? & ? & Hin & _)]; [done|]. by apply elem_of_nil in Hin.
  - rewrite IH. unfold UpdateDiff.scan_remote.
    destruct (list_remote_refs_sync d r) as [e|refs] eqn:Hl; simpl.
    + split.
      * intros [H|(r' & refs' & rr & Hin & Hl' & Hrr & Hk)]; [by left|].
        right. exists r', refs', rr. split; [apply elem_of_cons; by right|done].
      * intros [H|(r' & refs' & rr & Hin & Hl' & Hrr & Hk)]; [by left|].
        apply elem_of_cons in Hin as [->|Hin]; [congruence|].
        right. by exists r', refs', rr.
    + rewrite insert_refs_is_Some. split.
      * intros [[H|(rr & Hrr & Hk)]|(r' & refs' & rr & Hin & Hl' & Hrr & Hk)].
        -- by left.
        -- right. exists r, refs, rr. split; [apply elem_of_cons; by left|done].
        -- right. exists r', refs', rr. split; [apply elem_of_cons; by right|done].
      * intros [H|(r' & refs' & rr & Hin & Hl' & Hrr & Hk)]; [left; by left|].
        apply elem_of_cons in Hin as [->|Hin].
        -- left. right. exists rr. rewrite Hl in Hl'. injection Hl' as <-. done.
        -- right. by exists r', refs', rr.
Qed.

Lemma scan_remotes_is_Some d rs k :
  is_Some ((scan_remotes d rs).1 !! k) ↔ advertised d rs k.
Proof.
  unfold UpdateDiff.scan_remotes. rewrite scan_is_Some. simpl.
  rewrite lookup_empty. split; [|by right].
  intros [[? H]|H]; [discriminate|done].
Qed.

(** *** Dropping a remote from the configuration *)

Lemma get_refs_set_remotes rs d raw : get_refs (set_remotes rs d) raw = get_refs d raw.
Proof. induction raw as [|r raw IH]; simpl; [done|]. by rewrite IH. Qed.

Lemma list_installed_refs_set_remotes rs d :
  flatpak_installation_list_installed_refs (set_remotes rs d)
  = flatpak_installation_list_installed_refs d.
Proof.
  unfold flatpak_installation_list_installed_refs. simpl.
  destruct (list_refs d "app"); simpl; [done|].
  rewrite get_refs_set_remotes. destruct (get_refs d l); simpl; try done.
  destruct (list_refs d "runtime"); simpl; [done|].
  by rewrite get_refs_set_remotes.
Qed.

Lemma scan_set_remotes rs d l : ∀ acc,
  foldl (scan_remote (set_remotes rs d)) acc l = foldl (scan_remote d) acc l.
Proof. induction l as [|r l IH]; intros acc; simpl; [done|]. by rewrite IH. Qed.

(** C7: a remote whose catalog cannot be listed is skipped with a debug
    line and the call goes on: its result is the one computed without that
    remote, and it is a list whenever the installed refs can be listed.  A
    failure to list the installed refs is the result of the call. *)
Theorem failed_remote_is_skipped d l1 r l2 e :
  list_remotes_error d = None →
  remotes d = l1 ++ r :: l2 →
  list_remote_refs d r = inl e →
  (list_for_update d).1 = (list_for_update (set_remotes (l1 ++ l2) d)).1
  ∧ ("Update: Failed to read remote " +:+ r +:+ ": " +:+ message e +:+ newline)
      ∈ (list_for_update d).2
  ∧ (∀ installed, flatpak_installation_list_installed_refs d = Ok installed →
       ∃ updates, (list_for_update d).1 = Ok updates)
  ∧ (∀ e', flatpak_installation_list_installed_refs d = Err e' →
       (list_for_update d).1 = Err e').
Proof.
  intros Hok Hrs Hfail.
  unfold flatpak_installation_list_installed_refs_for_update,
    flatpak_installation_list_remotes, flatpak_dir_list_remotes.
  simpl. rewrite Hok, Hrs. rewrite list_installed_refs_set_remotes.
  unfold UpdateDiff.scan_remotes. rewrite scan_set_remotes.
  destruct (scan_skips_failed d l1 r l2 e (∅, []) Hfail) as [Htable Hline].
  destruct (foldl (scan_remote d) (∅, []) (l1 ++ r :: l2)) as [ht debug].
  destruct (foldl (scan_remote d) (∅, []) (l1 ++ l2)) as [ht' debug'].
  simpl in Htable, Hline. subst ht'.
  destruct (flatpak_installation_list_installed_refs d) as [installed|e'|]; simpl.
  - repeat split; try done. all: intros ? _; by eexists.
  - repeat split; try done. all: by intros ? [= <-].
  - repeat split; done.
Qed.


End Listing.

(** The scenario of the spec: test-remote advertises def456 for the app
    whose latest known commit is abc123, and the commit of the runtime
    that is known already; the other remote cannot be listed. *)
Example scenario_updates :
  flatpak_installation_list_installed_refs_for_update Scenario.remote_ref_new Scenario.dir
  = (Ok [Scenario.foo_snapshot],
     ["Update: Failed to read remote broken-remote: Could not connect" +:+ newline]).
Proof. vm_compute. reflexivity. Qed.


Lemma failed_remote_is_skipped_witness :
  (flatpak_installation_list_installed_refs_for_update Scenario.remote_ref_new
     Scenario.dir).1
  = (flatpak_installation_list_installed_refs_for_update Scenario.remote_ref_new
       (set_remotes (["test-remote"] ++ []) Scenario.dir)).1
  ∧ ("Update: Failed to read remote broken-remote: Could not connect" +:+ newline)
      ∈ (flatpak_installation_list_installed_refs_for_update Scenario.remote_ref_new
           Scenario.dir).2.
Proof.
  pose proof (failed_remote_is_skipped Scenario.remote_ref_new Scenario.dir
                ["test-remote"] "broken-remote" [] Scenario.unreachable
                eq_refl eq_refl eq_refl) as (H1 & H2 & _).
  split; [exact H1|exact H2].
Defined.

End UpdateDiffFacts.

(** ** Install, update and uninstall *)

Module TransactionFacts.
Import Progress Query Transactions.

(** Runs the steps of a transaction: unfolds the combinators and splits on
    every outcome the engine decides. *)
Ltac tx_unfold :=
  repeat progress
    (unfold run, goto_out, g_auto_lock, call, call_ignoring_error, local_call,
       call_with_progress, create_origin_remote, remote_delete, dir_lock,
       release_lock_file, undeploy_all, out_progress, throw, lift, read, result_of,
       record, flatpak_fail;
     unfold mbind, mret, tx_bind, tx_ret);
  simpl.

Ltac tx_split :=
  repeat match goal with
         | |- context [match fails ?E ?s with _ => _ end] =>
           destruct (fails E s) eqn:?; simpl
         | |- context [match of_sum ?x with _ => _ end] =>
           destruct x eqn:?; simpl
         | |- context [match get_ref ?d ?r with _ => _ end] =>
           destruct (get_ref d r) eqn:?; simpl
         | |- context [if ?b then _ else _] =>
           destruct b eqn:?; simpl
         end.

(** C10: the deprecated size query fails with the same error for every
    remote name and commit, in every state, and leaves the state as it
    found it. *)
Theorem fetch_remote_size_sync_fails (E : Engine) (remote_name commit : string) (w : World) :
  flatpak_installation_fetch_remote_size_sync remote_name commit w
  = (Err {| code := G_IO_ERROR_FAILED;
            message := "Deprecated function call flatpak_installation_fetch_remote_size_sync" |},
     w).
Proof.
  unfold flatpak_installation_fetch_remote_size_sync, flatpak_fail, throw.
  reflexivity.
Qed.

(** C5: when the composed ref has a deploy directory, install returns the
    AlreadyInstalled error and has made no call: the directory is the one
    it was given, no step is logged and nothing was reported. *)
Theorem install_already_installed (E : Engine) remote_name kind name arch branch progress
    (d : FlatpakDir) ref :
  flatpak_compose_ref E (bool_decide (kind = FLATPAK_REF_KIND_APP)) name branch arch = inr ref →
  deploy_base_exists d ref = true →
  run (flatpak_installation_install E remote_name kind name arch branch progress) d
  = (Err {| code := FLATPAK_ERROR_ALREADY_INSTALLED;
            message := name +:+ " branch " +:+ default "master" branch
                         +:+ " already installed" |},
     {| disk := d; lock := false; calls := []; delivered := [] |}).
Proof.
  intros Href Hdeploy. unfold flatpak_installation_install. tx_unfold.
  rewrite Href. simpl. rewrite Hdeploy. reflexivity.
Qed.



Ltac calls_forall :=
  repeat first [apply Forall_nil_2 | apply Forall_cons_2 | apply Forall_app_2];
  simpl; try done.

(** C9: uninstall leaves the lock released however it returns, every step
    after the explicit release (prune, cleanup of removed deploys, export
    update, change marker) runs without the lock, and the steps that
    change pointers, deploys and catalog run with it. *)
Theorem uninstall_lock_scope (E : Engine) kind name arch branch (d : FlatpakDir) :
  let res := run (flatpak_installation_uninstall E kind name arch branch) d in
  lock res.2 = false
  ∧ Forall (λ c, non_exclusive c.1 = true → c.2 = false) (calls res.2)
  ∧ Forall (λ c, exclusive c.1 = true → c.2 = true) (calls res.2).
Proof.
  unfold flatpak_installation_uninstall. tx_unfold.
  tx_split; (split; [reflexivity|]); split; calls_forall.
Qed.

(** C4: when the deploy directory exists, every step of uninstall
    succeeds and undeploy-all reports that nothing was deployed, the call
    still returns the NotInstalled error, after the change marker has been
    written. *)
Theorem uninstall_nothing_deployed (E : Engine) kind name arch branch (d : FlatpakDir)
    ref remote_name :
  flatpak_compose_ref E (bool_decide (kind = FLATPAK_REF_KIND_APP)) name branch arch = inr ref →
  deploy_base_exists d ref = true →
  get_origin d ref = inr remote_name →
  fails E flatpak_dir_lock = None →
  fails E (flatpak_dir_set_active ref) = None →
  fails E (flatpak_dir_drop_current_ref name) = None →
  fails E (flatpak_dir_undeploy_all ref) = None →
  fails E (flatpak_dir_remove_ref remote_name ref) = None →
  fails E flatpak_dir_prune = None →
  fails E (flatpak_dir_update_exports name) = None →
  fails E flatpak_dir_mark_changed = None →
  was_deployed E ref = false →
  let res := run (flatpak_installation_uninstall E kind name arch branch) d in
  res.1 = Err {| code := FLATPAK_ERROR_NOT_INSTALLED;
                 message := name +:+ " branch " +:+ default "master" branch
                              +:+ " is not installed" |}
  ∧ last (calls res.2) = Some (flatpak_dir_mark_changed, false)
  ∧ (flatpak_dir_undeploy_all ref, true) ∈ calls res.2
  ∧ (flatpak_dir_remove_ref remote_name ref, true) ∈ calls res.2
  ∧ (flatpak_dir_prune, false) ∈ calls res.2.
Proof.
  intros Href Hdeploy Horigin Hlock Hactive Hdrop Hundeploy Hremove Hprune Hexports
    Hmark Hwas.
  unfold flatpak_installation_uninstall. tx_unfold.
  repeat (simpl;
          first [ rewrite Href | rewrite Hlock | rewrite Hdeploy | rewrite Horigin
                | rewrite Hactive | rewrite Hdrop | rewrite Hundeploy | rewrite Hremove
                | rewrite Hprune | rewrite Hexports | rewrite Hmark | rewrite Hwas
                | match goal with
                  | |- context [if ?b then _ else _] => destruct b
                  end ]).
  all: simpl; repeat split; try reflexivity; set_solver.
Qed.

Section Monotone.

Variable E : Engine.

Local Abbreviation emit_E := (emit (g_format_size E) (g_format_size_full E) (double_percent E)).

Lemma call_with_progress_delivered progress s w :
  delivered (call_with_progress E progress s w).2
  = delivered w ++ (if progress then (emit_E 0 (signals E s)).1 else []).
Proof.
  unfold call_with_progress. destruct progress; simpl.
  - destruct (emit_E 0 (signals E s)) as [rs [last|]]; reflexivity.
  - by rewrite app_nil_r.
Qed.

Lemma install_delivered remote_name kind name arch branch progress d :
  delivered (run (flatpak_installation_install E remote_name kind name arch branch
                    progress) d).2 = []
  ∨ ∃ s, delivered (run (flatpak_installation_install E remote_name kind name arch branch
                           progress) d).2 = (emit_E 0 (signals E s)).1.
Proof.
  unfold flatpak_installation_install. tx_unfold.
  destruct (flatpak_compose_ref E _ name branch arch) as [e|ref]; simpl; [by left|].
  destruct (deploy_base_exists d ref); simpl; [by left|].
  destruct progress; simpl; [|tx_split; by left].
  right. exists (flatpak_dir_install ref remote_name).
  destruct (emit_E 0 (signals E (flatpak_dir_install ref remote_name))) as [rs [last|]];
    simpl; tx_split; reflexivity.
Qed.

Lemma update_delivered flags kind name arch branch progress d :
  delivered (run (flatpak_installation_update E flags kind name arch branch progress) d).2
  = []
  ∨ ∃ s, delivered (run (flatpak_installation_update E flags kind name arch branch
                           progress) d).2 = (emit_E 0 (signals E s)).1.
Proof.
  unfold flatpak_installation_update. tx_unfold.
  destruct (flatpak_compose_ref E _ name branch arch) as [e|ref]; simpl; [by left|].
  destruct (deploy_base_exists d ref); simpl; [|by left].
  destruct (get_origin d ref) as [e|remote_name]; simpl; [by left|].
  destruct (get_subpaths d ref) as [e|subpaths]; simpl; [by left|].
  destruct progress; simpl; [|tx_split; by left].
  set (s := flatpak_dir_update
              (bool_decide (Z.land flags (FLATPAK_UPDATE_FLAGS_NO_PULL E) ≠ 0))
              (bool_decide (Z.land flags (FLATPAK_UPDATE_FLAGS_NO_DEPLOY E) ≠ 0))
              remote_name ref subpaths).
  right. exists s.
  destruct (emit_E 0 (signals E s)) as [rs [last|]]; simpl; tx_split; reflexivity.
Qed.

End Monotone.

(** C2: the percents reported to the caller during one install and during
    one update never decrease, and a computed percent below the last
    reported one is replaced by the last reported one, which stays the
    stored datum. *)
Theorem reported_percent_monotone (E : Engine) :
  (∀ remote_name kind name arch branch progress d,
     StronglySorted Z.le
       (percents (delivered (run (flatpak_installation_install E remote_name kind name
                                    arch branch progress) d).2)))
  ∧ (∀ flags kind name arch branch progress d,
       StronglySorted Z.le
         (percents (delivered (run (flatpak_installation_update E flags kind name
                                      arch branch progress) d).2)))
  ∧ (∀ last_progress p buf new_progress est,
       compute_progress (g_format_size E) (g_format_size_full E) (double_percent E) p
       = Some (buf, new_progress, est) →
       new_progress < last_progress →
       progress_cb (g_format_size E) (g_format_size_full E) (double_percent E)
         last_progress p
       = Some ({| text := buf; percent := last_progress; estimating := est |},
               last_progress)).
Proof.
  split; [|split].
  - intros remote kind name arch branch progress d.
    destruct (install_delivered E remote kind name arch branch progress d)
      as [->|[s ->]]; [constructor|apply ProgressFacts.emit_sorted].
  - intros flags kind name arch branch progress d.
    destruct (update_delivered E flags kind name arch branch progress d)
      as [->|[s ->]]; [constructor|apply ProgressFacts.emit_sorted].
  - intros last p buf n est Hc Hlt.
    rewrite (ProgressFacts.progress_cb_max _ _ _ last p buf n est Hc).
    by rewrite Z.max_r by lia.
Qed.

(** *** The scenario, run *)

Example install_baz_run :
  let res := run (flatpak_installation_install Scenario.all_is_well "test-remote"
                    FLATPAK_REF_KIND_APP "org.example.Baz" None None true) Scenario.dir in
  res.1 = Ok (flatpak_installed_ref_new Scenario.baz "def456" (Some "def456")
                "test-remote" [] ("/var/lib/xdg-app/" +:+ Scenario.baz +:+ "/def456")
                2048 false)
  ∧ percents (delivered res.2) = [50; 50; 80]
  ∧ calls res.2 = [(g_main_context_push_thread_default, false);
                   (flatpak_dir_install Scenario.baz "test-remote", false);
                   (g_main_context_pop_thread_default, false);
                   (ostree_async_progress_finish, false)].
Proof. vm_compute. done. Qed.

Example install_bundle_run :
  let res := run (flatpak_installation_install_bundle Scenario.all_is_well "bar.bundle")
               Scenario.dir in
  res.1 = Ok (flatpak_installed_ref_new "app/org.example.Bar/x86_64/master" "77aa"
                (Some "77aa") "org.example.Bar-origin" []
                "/var/lib/xdg-app/app/org.example.Bar/x86_64/master/77aa" 2048 false)
  ∧ remotes (disk res.2) = ["test-remote"; "broken-remote"; "org.example.Bar-origin"].
Proof. vm_compute. done. Qed.

Example install_bundle_failed_run :
  let res := run (flatpak_installation_install_bundle Scenario.deploy_fails "bar.bundle")
               Scenario.dir in
  res.1 = Err Scenario.disk_full
  ∧ remotes (disk res.2) = ["test-remote"; "broken-remote"].
Proof. vm_compute. done. Qed.

Example uninstall_foo_run :
  let res := run (flatpak_installation_uninstall Scenario.all_is_well
                    FLATPAK_REF_KIND_APP "org.example.Foo" None None) Scenario.dir in
  res.1 = Ok ()
  ∧ calls res.2 = [(flatpak_dir_lock, false);
                   (flatpak_dir_set_active Scenario.foo, true);
                   (flatpak_dir_drop_current_ref "org.example.Foo", true);
                   (flatpak_dir_undeploy_all Scenario.foo, true);
                   (flatpak_dir_remove_ref "test-remote" Scenario.foo, true);
                   (glnx_release_lock_file, true);
                   (flatpak_dir_prune, false);
                   (flatpak_dir_cleanup_removed, false);
                   (flatpak_dir_update_exports "org.example.Foo", false);
                   (flatpak_dir_mark_changed, false)].
Proof. vm_compute. done. Qed.

Example progress_cb_objects :
  progress_cb (g_format_size Scenario.all_is_well) (g_format_size_full Scenario.all_is_well)
    (double_percent Scenario.all_is_well) 0 (Scenario.receiving 5 10 0)
  = Some ({| text := "Receiving objects: 50% (5/10) 2048 bytes/s 4096 bytes";
             percent := 50; estimating := false |}, 50).
Proof. vm_compute. reflexivity. Qed.

(** The percentage in the text goes through a double: 29 of 100 prints
    as 28, where the percent reported to the caller is 29. *)
Example progress_cb_objects_text :
  progress_cb (g_format_size Scenario.all_is_well) (g_format_size_full Scenario.all_is_well)
    (double_percent Scenario.all_is_well) 0 (Scenario.receiving 29 100 0)
  = Some ({| text := "Receiving objects: 28% (29/100) 2048 bytes/s 4096 bytes";
             percent := 29; estimating := false |}, 29).
Proof. vm_compute. reflexivity. Qed.

(** *** The theorems at the scenario *)


Lemma reported_percent_monotone_witness :
  StronglySorted Z.le
    (percents (delivered (run (flatpak_installation_install Scenario.all_is_well
                                 "test-remote" FLATPAK_REF_KIND_APP "org.example.Baz"
                                 None None true) Scenario.dir).2))
  ∧ progress_cb (g_format_size Scenario.all_is_well)
      (g_format_size_full Scenario.all_is_well) (double_percent Scenario.all_is_well)
      50 (Scenario.receiving 5 10 1)
    = Some ({| text := "Receiving metadata objects: 1/(estimating) 2048 bytes/s 4096 bytes";
               percent := 50; estimating := true |}, 50).
Proof.
  destruct (reported_percent_monotone Scenario.all_is_well) as (Hinstall & _ & Hclamp).
  split.
  - apply Hinstall.
  - apply (Hclamp 50 (Scenario.receiving 5 10 1) _ 1 true); [vm_compute; reflexivity|lia].
Defined.

Lemma uninstall_nothing_deployed_witness :
  let res := run (flatpak_installation_uninstall Scenario.nothing_deployed
                    FLATPAK_REF_KIND_APP "org.example.Foo" None None) Scenario.dir in
  res.1 = Err {| code := FLATPAK_ERROR_NOT_INSTALLED;
                 message := "org.example.Foo branch master is not installed" |}
  ∧ last (calls res.2) = Some (flatpak_dir_mark_changed, false).
Proof.
  destruct (uninstall_nothing_deployed Scenario.nothing_deployed FLATPAK_REF_KIND_APP
              "org.example.Foo" None None Scenario.dir Scenario.foo "test-remote"
              eq_refl eq_refl eq_refl eq_refl eq_refl eq_refl eq_refl eq_refl eq_refl
              eq_refl eq_refl eq_refl) as (Hres & Hlast & _).
  split; [exact Hres|exact Hlast].
Defined.

Lemma install_already_installed_witness :
  run (flatpak_installation_install Scenario.all_is_well "test-remote"
         FLATPAK_REF_KIND_APP "org.example.Foo" None None true) Scenario.dir
  = (Err {| code := FLATPAK_ERROR_ALREADY_INSTALLED;
            message := "org.example.Foo branch master already installed" |},
     {| disk := Scenario.dir; lock := false; calls := []; delivered := [] |}).
Proof.
  exact (install_already_installed Scenario.all_is_well "test-remote" FLATPAK_REF_KIND_APP
           "org.example.Foo" None None true Scenario.dir Scenario.foo eq_refl eq_refl).
Defined.

End TransactionFacts.

(** ** More on the progress callback *)

Module ProgressMore.
Import CInt Progress ProgressConditions.

Section Callback.

Variable g_format_size : Z → string.
Variable g_format_size_full : Z → string.
Variable double_percent : Z → Z → Z.

Local Abbreviation compute_progress :=
  (compute_progress g_format_size g_format_size_full double_percent).
Local Abbreviation progress_cb := (progress_cb g_format_size g_format_size_full double_percent).
Local Abbreviation emit := (emit g_format_size g_format_size_full double_percent).

Lemma compute_progress_None_iff p : compute_progress p = None ↔ divides_by_zero p.
Proof.
  unfold Progress.compute_progress, divides_by_zero, udiv.
  destruct (status p) as [s|].
  { split; [discriminate|]. by intros [? _]. }
  destruct (decide (outstanding_fetches p ≠ 0)) as [Hf|Hf].
  2: { destruct (decide (outstanding_writes p ≠ 0));
         (split; [discriminate|]); by intros (_ & ? & _). }
  destruct (decide (ellapsed_time p = 0)) as [He|He]; simpl.
  { split; [|done]. intros _. repeat split; try done. by left. }
  destruct (decide (total_delta_parts p > 0)) as [Hd|Hd].
  - destruct (decide (total_delta_part_size p = 0)) as [Ht|Ht]; simpl.
    + split; [|done]. intros _. repeat split; try done. right. left. done.
    + split; [discriminate|].
      intros (_ & _ & [?|[[_ ?]|[? _]]]); done.
  - destruct (decide (outstanding_metadata_fetches p ≠ 0)) as [Hm|Hm].
    + split; [discriminate|].
      intros (_ & _ & [?|[[? _]|(_ & ? & _)]]); done.
    + destruct (decide (requested p = 0)) as [Hr|Hr]; simpl.
      * split; [|done]. intros _. repeat split; try done. right. right.
        repeat split; try done.
        destruct (decide (outstanding_metadata_fetches p = 0)); [done|]. by destruct Hm.
      * split; [discriminate|].
        intros (_ & _ & [?|[[? _]|(_ & _ & ?)]]); done.
Qed.

Lemma progress_cb_None_compute last p : progress_cb last p = None ↔ compute_progress p = None.
Proof.
  unfold Progress.progress_cb.
  destruct (compute_progress p) as [[[buf n] est]|]; simpl; done.
Qed.

(** The callback has no result exactly on the snapshots that make it
    divide by zero, whatever the last reported percent. *)
Theorem progress_cb_undefined_iff last p :
  progress_cb last p = None ↔ divides_by_zero p.
Proof. by rewrite progress_cb_None_compute, compute_progress_None_iff. Qed.

Lemma compute_progress_idle p :
  is_Some (status p) ∨ outstanding_fetches p = 0 →
  ∃ buf, compute_progress p = Some (buf, 0, false)
         ∧ ∀ s, status p = Some s → buf = s.
Proof.
  unfold Progress.compute_progress. intros [[s Hs]|Hf].
  - rewrite Hs. exists s. split; [done|]. by intros ? [= <-].
  - destruct (status p) as [s|].
    + exists s. split; [done|]. by intros ? [= <-].
    + rewrite decide_False by (intros H; by apply H).
      destruct (decide (outstanding_writes p ≠ 0)); eexists; (split; [done|]); done.
Qed.

(** With a status string, or with no fetch outstanding, the callback
    always has a result: it repeats the last percent, is not estimating,
    and a status string is the text as it is. *)
Theorem progress_cb_outside_fetch last p :
  0 ≤ last →
  is_Some (status p) ∨ outstanding_fetches p = 0 →
  ∃ r, progress_cb last p = Some (r, last)
       ∧ percent r = last ∧ estimating r = false
       ∧ ∀ s, status p = Some s → text r = s.
Proof.
  intros Hlast Hidle.
  destruct (compute_progress_idle p Hidle) as (buf & Hc & Hs).
  rewrite (ProgressFacts.progress_cb_max _ _ _ last p buf 0 false Hc).
  rewrite Z.max_r by lia. eexists. split; [done|]. simpl. done.
Qed.

(** A report is an estimate exactly in the metadata phase of a fetch, and
    then it stands at 1 percent unless more was reported before. *)
Theorem progress_cb_estimating last p r last' :
  progress_cb last p = Some (r, last') →
  (estimating r = true
   ↔ status p = None ∧ outstanding_fetches p ≠ 0
     ∧ ¬ total_delta_parts p > 0 ∧ outstanding_metadata_fetches p ≠ 0)
  ∧ (estimating r = true → percent r = Z.max 1 last).
Proof.
  unfold Progress.progress_cb, Progress.compute_progress.
  destruct (status p) as [s|]; simpl.
  { intros [= <- <-]. simpl. split; [|done]. split; [done|]. by intros [? _]. }
  destruct (decide (outstanding_fetches p ≠ 0)) as [Hf|Hf]; simpl.
  2: { destruct (decide (outstanding_writes p ≠ 0)); simpl;
         intros [= <- <-]; simpl; (split; [|done]); (split; [done|]);
         by intros (_ & ? & _). }
  destruct (udiv (bytes_transferred p) (ellapsed_time p)) as [bytes_sec|]; simpl;
    [|discriminate].
  destruct (decide (total_delta_parts p > 0)) as [Hd|Hd]; simpl.
  { destruct (udiv _ (total_delta_part_size p)); simpl; [|discriminate].
    intros [= <- <-]. simpl. split; [|done]. split; [done|]. by intros (_ & _ & ? & _). }
  destruct (decide (outstanding_metadata_fetches p ≠ 0)) as [Hm|Hm]; simpl.
  { intros [= <- <-]. simpl. split; [done|]. intros _.
    destruct (decide (1 < last)); lia. }
  destruct (udiv _ (requested p)); simpl; [|discriminate].
  intros [= <- <-]. simpl. split; [|done]. split; [done|]. by intros (_ & _ & _ & ?).
Qed.

(** *** The range of the percent *)

Lemma compute_progress_within p buf n est :
  compute_progress p = Some (buf, n, est) → within_totals p → 0 ≤ n ≤ 100.
Proof.
  unfold Progress.compute_progress, within_totals, udiv, wrap32, wrap64.
  intros Hc [Hdelta Hobjects].
  destruct (status p) as [s|]; [injection Hc as <- <- <-; lia|].
  destruct (decide (outstanding_fetches p ≠ 0)); simpl in Hc.
  2: { destruct (decide (outstanding_writes p ≠ 0)); injection Hc as <- <- <-; lia. }
  destruct (decide (ellapsed_time p = 0)); simpl in Hc; [discriminate|].
  destruct (decide (total_delta_parts p > 0)) as [Hd|Hd].
  - destruct (Hdelta Hd) as [Hb Hb64].
    destruct (decide (total_delta_part_size p = 0)); simpl in Hc; [discriminate|].
    injection Hc as <- <- <-.
    rewrite (Z.mod_small (100 * bytes_transferred p)) by lia.
    assert (0 ≤ 100 * bytes_transferred p / total_delta_part_size p ≤ 100) as Hq.
    { split; [apply Z.div_pos; lia|].
      apply Z.div_le_upper_bound; lia. }
    rewrite Z.mod_small by lia. done.
  - destruct (Hobjects Hd) as [Hf Hf32].
    destruct (decide (outstanding_metadata_fetches p ≠ 0)); [injection Hc as <- <- <-; lia|].
    destruct (decide (requested p = 0)); simpl in Hc; [discriminate|].
    injection Hc as <- <- <-.
    rewrite (Z.mod_small (100 * fetched p)) by lia.
    split; [apply Z.div_pos; lia|]. apply Z.div_le_upper_bound; lia.
Qed.

Lemma emit_within ps : ∀ last,
  0 ≤ last ≤ 100 → Forall within_totals ps →
  Forall (λ x, 0 ≤ x ≤ 100) (percents (emit last ps).1).
Proof.
  induction ps as [|p ps IH]; intros last Hlast Hps; simpl; [constructor|].
  apply Forall_cons_1 in Hps as [Hp Hps].
  destruct (compute_progress p) as [[[buf n] est]|] eqn:Hc.
  - rewrite (ProgressFacts.progress_cb_max _ _ _ last p buf n est Hc).
    pose proof (compute_progress_within p buf n est Hc Hp) as Hn.
    assert (0 ≤ Z.max n last ≤ 100) as Hm by lia.
    specialize (IH (Z.max n last) Hm Hps).
    destruct (emit (Z.max n last) ps) as [rs fin]. simpl in *.
    by constructor.
  - assert (progress_cb last p = None) as -> by by apply progress_cb_None_compute.
    constructor.
Qed.

(** While the counters stay within their totals, every percent reported
    during one operation lies between 0 and 100. *)
Theorem emit_percent_range ps :
  Forall within_totals ps →
  Forall (λ x, 0 ≤ x ≤ 100) (percents (emit 0 ps).1).
Proof. apply emit_within. lia. Qed.

(** *** Runs of the callback *)

Lemma last_percent_cons start r rs :
  last_percent start (r :: rs) = last_percent (percent r) rs.
Proof.
  unfold last_percent, percents. destruct rs as [|r' rs]; [done|].
  change (last (map percent (r :: r' :: rs))) with (last (map percent (r' :: rs))).
  destruct (last (map percent (r' :: rs))) as [x|] eqn:Hl; [done|].
  by apply last_None in Hl.
Qed.

(** When no snapshot makes the callback divide by zero, every signal is
    reported, and the datum left on the progress object is the percent of
    the last report. *)
Theorem emit_complete ps : ∀ last,
  Forall (λ p, ¬ divides_by_zero p) ps →
  ∃ rs, emit last ps = (rs, Some (last_percent last rs)) ∧ length rs = length ps.
Proof.
  induction ps as [|p ps IH]; intros last Hps; simpl.
  - by exists [].
  - apply Forall_cons_1 in Hps as [Hp Hps].
    destruct (progress_cb last p) as [[r last']|] eqn:Hcb.
    + apply ProgressFacts.progress_cb_inv in Hcb as [Hr _].
      destruct (IH last' Hps) as (rs & -> & Hlen).
      exists (r :: rs). rewrite last_percent_cons, Hr. simpl. by rewrite Hlen.
    + apply progress_cb_None_compute, compute_progress_None_iff in Hcb. done.
Qed.

End Callback.

End ProgressMore.

(** ** More on the queries *)

Module QueryMore.
Import Query UpdateDiff Lookup.

Lemma append_cons c s1 s2 : String c s1 +:+ s2 = String c (s1 +:+ s2).
Proof. reflexivity. Qed.

Lemma g_strsplit_head_None s : GStr.g_strsplit s !! 0%nat = None ↔ s = "".
Proof.
  destruct s as [|a s]; [done|].
  unfold GStr.g_strsplit. destruct (GStr.pieces (String a s)) as [p ps]. done.
Qed.

Lemma get_ref_not_Err d full_ref e : get_ref d full_ref ≠ Err e.
Proof.
  unfold get_ref. destruct (deploy_data d full_ref); simpl; [|done].
  destruct (GStr.g_strsplit full_ref !! 0%nat); simpl; done.
Qed.

(** get_ref has no result exactly when the ref has no deploy data or is
    the empty string; it never returns an error. *)
Theorem get_ref_crash_iff d full_ref :
  (get_ref d full_ref = Crash ↔ deploy_data d full_ref = None ∨ full_ref = "")
  ∧ (∀ e, get_ref d full_ref ≠ Err e).
Proof.
  split; [|intros e; apply get_ref_not_Err].
  rewrite <- g_strsplit_head_None. unfold get_ref.
  destruct (deploy_data d full_ref) as [dd|]; simpl.
  - destruct (GStr.g_strsplit full_ref !! 0%nat); simpl.
    + split; [done|]. by intros [?|?].
    + split; [|done]. by right.
  - split; [|done]. by left.
Qed.

(** *** Refs in canonical form *)

Lemma pieces_name name : ∀ rest,
  has_slash name = false →
  GStr.pieces (name +:+ String "/" rest)
  = (name, (GStr.pieces rest).1 :: (GStr.pieces rest).2).
Proof.
  induction name as [|a name IH]; intros rest Hname.
  - change ("" +:+ String "/" rest) with (String "/" rest). simpl.
    by destruct (GStr.pieces rest).
  - simpl in Hname. apply orb_false_iff in Hname as [Ha Hname].
    apply bool_decide_eq_false in Ha.
    rewrite append_cons. simpl. rewrite (IH rest Hname).
    by rewrite decide_False.
Qed.

Lemma g_strsplit_kind_name kind name rest :
  kind ≠ "" → has_slash kind = false → has_slash name = false →
  ∃ tail, GStr.g_strsplit (kind +:+ "/" +:+ name +:+ "/" +:+ rest) = kind :: name :: tail.
Proof.
  intros Hkind Hk Hn.
  change ("/" +:+ name +:+ "/" +:+ rest) with (String "/" (name +:+ String "/" rest)).
  destruct kind as [|a kind]; [done|]. rewrite append_cons.
  unfold GStr.g_strsplit. rewrite <- append_cons.
  rewrite (pieces_name _ _ Hk). simpl. rewrite (pieces_name _ _ Hn). simpl.
  by eexists.
Qed.

(** For an app ref in canonical form whose name has no slash, the
    snapshot is current exactly when the pointer of that name is this ref;
    for a runtime ref in canonical form it never is. *)
Theorem get_ref_canonical d name rest dd :
  has_slash name = false →
  (deploy_data d ("app/" +:+ name +:+ "/" +:+ rest) = Some dd →
   ∃ r, get_ref d ("app/" +:+ name +:+ "/" +:+ rest) = Ok r
        ∧ is_current r
          = bool_decide (current_ref d (Some name)
                         = Some ("app/" +:+ name +:+ "/" +:+ rest)))
  ∧ (deploy_data d ("runtime/" +:+ name +:+ "/" +:+ rest) = Some dd →
     ∃ r, get_ref d ("runtime/" +:+ name +:+ "/" +:+ rest) = Ok r
          ∧ is_current r = false).
Proof.
  intros Hname. split; intros Hdd.
  - destruct (g_strsplit_kind_name "app" name rest) as [tail Hparts]; try done.
    change ("app" +:+ "/" +:+ name +:+ "/" +:+ rest)
      with ("app/" +:+ name +:+ "/" +:+ rest) in Hparts.
    unfold get_ref. rewrite Hdd, Hparts. simpl. eexists. split; [done|]. simpl.
    destruct (current_ref d (Some name)) as [cur|].
    + apply bool_decide_ext. split; [by intros ->|by intros [= ->]].
    + by rewrite bool_decide_false.
  - destruct (g_strsplit_kind_name "runtime" name rest) as [tail Hparts]; try done.
    change ("runtime" +:+ "/" +:+ name +:+ "/" +:+ rest)
      with ("runtime/" +:+ name +:+ "/" +:+ rest) in Hparts.
    unfold get_ref. rewrite Hdd, Hparts. simpl. by eexists.
Qed.

(** *** The listings *)

Lemma get_refs_refs d raw : ∀ rs, get_refs d raw = Ok rs → installed_ref <$> rs = raw.
Proof.
  intros rs H. apply QueryFacts.get_refs_inv in H.
  induction H as [|full_ref r raw rs Hr _ IH]; [done|].
  apply QueryFacts.get_ref_inv in Hr as (_ & _ & _ & _ & Href & _).
  rewrite fmap_cons. by rewrite Href, IH.
Qed.

Lemma get_refs_elem d raw rs full_ref r :
  get_refs d raw = Ok rs → full_ref ∈ raw → get_ref d full_ref = Ok r → r ∈ rs.
Proof.
  intros H. apply QueryFacts.get_refs_inv in H.
  induction H as [|full_ref' r' raw rs Hr _ IH]; intros Hin Hget.
  - by apply elem_of_nil in Hin.
  - apply elem_of_cons in Hin as [->|Hin].
    + rewrite Hr in Hget. injection Hget as ->. apply elem_of_cons. by left.
    + apply elem_of_cons. right. by apply IH.
Qed.

Lemma list_installed_refs_inv d rs :
  flatpak_installation_list_installed_refs d = Ok rs →
  ∃ raw_apps raw_runtimes apps runtimes,
    list_refs d "app" = inr raw_apps ∧ list_refs d "runtime" = inr raw_runtimes
    ∧ get_refs d raw_apps = Ok apps ∧ get_refs d raw_runtimes = Ok runtimes
    ∧ rs = apps ++ runtimes.
Proof.
  unfold flatpak_installation_list_installed_refs.
  destruct (list_refs d "app") as [e|raw_apps] eqn:Ha; simpl; [discriminate|].
  destruct (get_refs d raw_apps) as [apps| |] eqn:Hga; simpl; try discriminate.
  destruct (list_refs d "runtime") as [e|raw_runtimes] eqn:Hr; simpl; [discriminate|].
  destruct (get_refs d raw_runtimes) as [runtimes| |] eqn:Hgr; simpl; try discriminate.
  intros [= <-]. by exists raw_apps, raw_runtimes, apps, runtimes.
Qed.

(** The list of installed refs has one snapshot per ref that the
    directory lists, the apps first and then the runtimes, in the order of
    the two listings. *)
Theorem list_installed_refs_order d rs :
  flatpak_installation_list_installed_refs d = Ok rs →
  ∃ raw_apps raw_runtimes,
    list_refs d "app" = inr raw_apps ∧ list_refs d "runtime" = inr raw_runtimes
    ∧ installed_ref <$> rs = raw_apps ++ raw_runtimes.
Proof.
  intros H. apply list_installed_refs_inv in H
    as (raw_apps & raw_runtimes & apps & runtimes & Ha & Hr & Hga & Hgr & ->).
  exists raw_apps, raw_runtimes. repeat split; try done.
  rewrite fmap_app. by rewrite (get_refs_refs _ _ _ Hga), (get_refs_refs _ _ _ Hgr).
Qed.

(** The list of all installed refs is the list of the apps followed by
    the list of the runtimes, as the listing by kind gives them. *)
Theorem list_installed_refs_by_kind_app d rs :
  flatpak_installation_list_installed_refs d = Ok rs
  ↔ ∃ apps runtimes,
      flatpak_installation_list_installed_refs_by_kind d FLATPAK_REF_KIND_APP = Ok apps
      ∧ flatpak_installation_list_installed_refs_by_kind d FLATPAK_REF_KIND_RUNTIME
        = Ok runtimes
      ∧ rs = apps ++ runtimes.
Proof.
  unfold flatpak_installation_list_installed_refs,
    flatpak_installation_list_installed_refs_by_kind. simpl.
  destruct (list_refs d "app") as [e|raw_apps]; simpl.
  { split; [discriminate|]. by intros (? & ? & ? & _). }
  destruct (get_refs d raw_apps) as [apps| |]; simpl.
  2,3: split; [discriminate|]; by intros (? & ? & ? & _).
  destruct (list_refs d "runtime") as [e|raw_runtimes]; simpl.
  { split; [discriminate|]. by intros (? & ? & _ & ? & _). }
  destruct (get_refs d raw_runtimes) as [runtimes| |]; simpl.
  2,3: split; [discriminate|]; by intros (? & ? & _ & ? & _).
  split.
  - intros [= <-]. by exists apps, runtimes.
  - by intros (? & ? & [= <-] & [= <-] & ->).
Qed.

(** The current app of a name: an error is always NotFound, and a
    snapshot is that of the ref the pointer holds; it is flagged current
    whenever that ref is an app ref of this name. *)
Theorem current_installed_app_result d name :
  (∀ e, flatpak_installation_get_current_installed_app d name = Err e →
        e = {| code := G_IO_ERROR_NOT_FOUND;
               message := "App " +:+ name +:+ " no installed" |})
  ∧ (∀ r, flatpak_installation_get_current_installed_app d name = Ok r →
          current_ref d (Some name) = Some (installed_ref r)
          ∧ if_deployed d (installed_ref r) = true
          ∧ (ref_kind (installed_ref r) = Some FLATPAK_REF_KIND_APP →
             ref_name (installed_ref r) = Some name →
             is_current r = true)).
Proof.
  unfold flatpak_installation_get_current_installed_app.
  destruct (current_ref d (Some name)) as [current|] eqn:Hcur.
  2: { split; [by intros e [= <-]|discriminate]. }
  destruct (if_deployed d current) eqn:Hdep.
  2: { split; [by intros e [= <-]|discriminate]. }
  split; [intros e He; by apply get_ref_not_Err in He|].
  intros r Hr. apply QueryFacts.get_ref_inv in Hr
    as (dd & p0 & _ & Hp0 & Href & _ & _ & _ & His).
  rewrite Href. repeat split; try done.
  intros Hkind Hname. apply QueryFacts.ref_kind_app in Hkind.
  unfold ref_name in Hname. rewrite His.
  rewrite Hkind in Hp0. injection Hp0 as <-. simpl.
  rewrite Hname, Hcur. by apply bool_decide_eq_true.
Qed.

Section Refs.

Variable flatpak_get_arch : string.
Variable flatpak_build_app_ref : string → option string → option string → string.
Variable flatpak_build_runtime_ref : string → option string → option string → string.
Variable flatpak_remote_ref_new : string → string → string → option FlatpakRemoteRef.

Local Abbreviation get_installed_ref :=
  (flatpak_installation_get_installed_ref flatpak_get_arch flatpak_build_app_ref
     flatpak_build_runtime_ref).
Local Abbreviation fetch_remote_ref_sync :=
  (flatpak_installation_fetch_remote_ref_sync flatpak_build_app_ref
     flatpak_build_runtime_ref flatpak_remote_ref_new).

(** A snapshot that the single lookup returns is the one the list of
    installed refs holds for that ref, whenever the directory lists the
    ref. *)
Theorem get_installed_ref_listed d kind name arch branch r rs :
  get_installed_ref d kind name arch branch = Ok r →
  flatpak_installation_list_installed_refs d = Ok rs →
  installed_ref r ∈ installed_ref <$> rs →
  r ∈ rs.
Proof.
  unfold Lookup.flatpak_installation_get_installed_ref. intros Hget Hlist Hin.
  match type of Hget with
  | (if if_deployed d ?ref then _ else _) = _ => set (full_ref := ref) in *
  end.
  destruct (if_deployed d full_ref); [|discriminate].
  pose proof Hget as Hinv.
  apply QueryFacts.get_ref_inv in Hinv as (_ & _ & _ & _ & Href & _).
  rewrite Href in Hin.
  apply list_installed_refs_inv in Hlist
    as (raw_apps & raw_runtimes & apps & runtimes & _ & _ & Hga & Hgr & ->).
  rewrite fmap_app, (get_refs_refs _ _ _ Hga), (get_refs_refs _ _ _ Hgr) in Hin.
  apply elem_of_app in Hin as [Hin|Hin]; apply elem_of_app.
  - left. by eapply get_refs_elem.
  - right. by eapply get_refs_elem.
Qed.

(** The single lookup fails with NotFound exactly when the ref it builds
    has no deploy. *)
Theorem get_installed_ref_not_found d kind name arch branch :
  (∃ e, get_installed_ref d kind name arch branch = Err e)
  ↔ if_deployed d
      (if decide (kind = FLATPAK_REF_KIND_APP)
       then flatpak_build_app_ref name branch (Some (default flatpak_get_arch arch))
       else flatpak_build_runtime_ref name branch (Some (default flatpak_get_arch arch)))
    = false.
Proof.
  unfold Lookup.flatpak_installation_get_installed_ref.
  assert (match arch with None => Some flatpak_get_arch | Some a => Some a end
          = Some (default flatpak_get_arch arch)) as -> by by destruct arch.
  destruct (if_deployed d _) eqn:Hdep.
  - split; [|done]. intros [e He]. by apply get_ref_not_Err in He.
  - split; [done|]. intros _. by eexists.
Qed.

Lemma g_hash_table_lookup_elem ht key v :
  g_hash_table_lookup ht key = Some v → (key, v) ∈ ht.
Proof.
  induction ht as [|[k v'] ht IH]; simpl; [done|].
  destruct (decide (k = key)) as [->|Hne].
  - intros [= ->]. apply elem_of_cons. by left.
  - intros H. apply elem_of_cons. right. by apply IH.
Qed.

Lemma g_hash_table_lookup_None ht key :
  g_hash_table_lookup ht key = None ↔ key ∉ ht.*1.
Proof.
  induction ht as [|[k v'] ht IH]; simpl.
  - split; [|done]. intros _ H. by apply elem_of_nil in H.
  - destruct (decide (k = key)) as [->|Hne].
    + split; [done|]. intros H. destruct H. apply elem_of_cons. by left.
    + rewrite IH. split.
      * intros H Hin. apply elem_of_cons in Hin as [Heq|Hin]; [by destruct Hne|done].
      * intros H Hin. apply H. apply elem_of_cons. by right.
Qed.

(** A remote ref that the single lookup returns is one of those the
    listing of that remote returns; a remote that cannot be listed gives
    the same error in both; and a ref that the remote does not advertise
    gives NotFound. *)
Theorem fetch_remote_ref_sync_listed d remote kind name arch branch :
  (∀ rr, fetch_remote_ref_sync d remote kind name arch branch = Ok (Some rr) →
         ∃ refs, flatpak_installation_list_remote_refs_sync flatpak_remote_ref_new d remote
                 = inr refs ∧ rr ∈ refs)
  ∧ (∀ e, flatpak_installation_list_remote_refs_sync flatpak_remote_ref_new d remote = inl e →
          fetch_remote_ref_sync d remote kind name arch branch = Err e)
  ∧ (∀ ht, list_remote_refs d remote = inr ht →
           (if decide (kind = FLATPAK_REF_KIND_APP)
            then flatpak_build_app_ref name (Some (default "master" branch)) arch
            else flatpak_build_runtime_ref name (Some (default "master" branch)) arch)
             ∉ ht.*1 →
           ∃ e, fetch_remote_ref_sync d remote kind name arch branch = Err e
                ∧ code e = G_IO_ERROR_NOT_FOUND).
Proof.
  unfold Lookup.flatpak_installation_fetch_remote_ref_sync,
    flatpak_installation_list_remote_refs_sync.
  assert (match branch with None => "master" | Some b => b end = default "master" branch)
    as -> by by destruct branch.
  destruct (list_remote_refs d remote) as [e|ht]; simpl.
  { split; [discriminate|]. split; [by intros ? [= <-]|discriminate]. }
  split; [|split; [discriminate|]].
  - intros rr. destruct (g_hash_table_lookup ht _) as [checksum|] eqn:Hl; [|discriminate].
    intros [= Hnew]. eexists. split; [done|].
    apply list_elem_of_omap. eexists (_, checksum). split.
    + by apply g_hash_table_lookup_elem.
    + done.
  - intros ht' [= <-] Hnot. apply g_hash_table_lookup_None in Hnot. rewrite Hnot.
    by eexists.
Qed.

End Refs.

(** Looking a remote up by name agrees with the list of remotes: the
    error of the listing, the name when it is listed, NotFound when it is
    not. *)
Theorem get_remote_by_name_listed d name :
  match flatpak_installation_list_remotes d with
  | inl e => flatpak_installation_get_remote_by_name d name = Err e
  | inr names =>
    (name ∈ names → flatpak_installation_get_remote_by_name d name = Ok name)
    ∧ (name ∉ names →
       flatpak_installation_get_remote_by_name d name
       = Err {| code := G_IO_ERROR_NOT_FOUND;
                message := "No remote named '" +:+ name +:+ "'" |})
  end.
Proof.
  unfold flatpak_installation_list_remotes, flatpak_installation_get_remote_by_name.
  destruct (flatpak_dir_list_remotes d) as [e|names]; [done|].
  assert (∀ l, (name ∈ l → find_remote name l = Some name)
               ∧ (name ∉ l → find_remote name l = None)) as Hfind.
  { induction l as [|x l [IH1 IH2]]; simpl.
    - split; [|done]. intros H. by apply elem_of_nil in H.
    - destruct (decide (x = name)) as [->|Hne].
      + split; [done|]. intros H. destruct H. apply elem_of_cons. by left.
      + split.
        * intros H. apply elem_of_cons in H as [Heq|H]; [by destruct Hne|by apply IH1].
        * intros H. apply IH2. intros Hin. apply H. apply elem_of_cons. by right. }
  destruct (Hfind names) as [H1 H2]. split; intros H.
  - by rewrite (H1 H).
  - by rewrite (H2 H).
Qed.

End QueryMore.

(** ** More on the update-diff listing *)

Module UpdateDiffMore.
Import Query UpdateDiff.

Section Listing.

Variable flatpak_remote_ref_new : string → string → string → option FlatpakRemoteRef.

Local Abbreviation list_remote_refs_sync :=
  (flatpak_installation_list_remote_refs_sync flatpak_remote_ref_new).
Local Abbreviation scan_remote := (scan_remote flatpak_remote_ref_new).
Local Abbreviation scan_remotes := (scan_remotes flatpak_remote_ref_new).
Local Abbreviation list_for_update :=
  (flatpak_installation_list_installed_refs_for_update flatpak_remote_ref_new).

Lemma list_for_update_inv d updates :
  (list_for_update d).1 = Ok updates →
  ∃ installed,
    list_remotes_error d = None
    ∧ flatpak_installation_list_installed_refs d = Ok installed
    ∧ updates = List.filter (needs_update (scan_remotes d (remotes d)).1) installed.
Proof.
  unfold flatpak_installation_list_installed_refs_for_update,
    flatpak_installation_list_remotes, flatpak_dir_list_remotes.
  destruct (list_remotes_error d) as [e|]; simpl; [discriminate|].
  destruct (scan_remotes d (remotes d)) as [ht debug]. simpl.
  destruct (flatpak_installation_list_installed_refs d) as [installed| |]; simpl;
    try discriminate.
  intros [= <-]. exists installed. repeat split.
  by rewrite UpdateDiffFacts.collect_updates_filter.
Qed.

Lemma filter_sublist {A} (f : A → bool) (l : list A) : List.filter f l `sublist_of` l.
Proof.
  induction l as [|x l IH]; simpl; [constructor|].
  destruct (f x); by constructor.
Qed.

(** The result keeps the installed refs it reports in the order of the
    list of installed refs, each at most as often as it is listed. *)
Theorem updates_sublist d updates :
  (list_for_update d).1 = Ok updates →
  ∃ installed,
    flatpak_installation_list_installed_refs d = Ok installed
    ∧ updates `sublist_of` installed.
Proof.
  intros H. apply list_for_update_inv in H as (installed & _ & Hinst & ->).
  exists installed. split; [done|]. apply filter_sublist.
Qed.

(** *** No catalog at all *)

Lemma scan_all_failed d rs : ∀ acc,
  Forall (λ r, ∃ e, list_remote_refs d r = inl e) rs →
  (foldl (scan_remote d) acc rs).1 = acc.1
  ∧ length (foldl (scan_remote d) acc rs).2 = (length acc.2 + length rs)%nat.
Proof.
  induction rs as [|r rs IH]; intros acc Hrs; simpl; [by rewrite Nat.add_0_r|].
  apply Forall_cons_1 in Hrs as [[e He] Hrs].
  destruct (IH (scan_remote d acc r) Hrs) as [IH1 IH2].
  rewrite IH1, IH2, (UpdateDiffFacts.scan_remote_failed _ _ _ _ _ He). simpl.
  rewrite length_app. simpl. split; [done|lia].
Qed.

Lemma filter_needs_update_empty installed :
  List.filter (needs_update ∅) installed = [].
Proof.
  induction installed as [|x installed IH]; simpl; [done|].
  unfold needs_update at 1. by rewrite lookup_empty.
Qed.

(** When no remote can be listed (and so too when none is configured),
    no installed ref is reported, and one debug line is written per
    remote. *)
Theorem no_catalog_no_updates d installed :
  list_remotes_error d = None →
  Forall (λ r, ∃ e, list_remote_refs d r = inl e) (remotes d) →
  flatpak_installation_list_installed_refs d = Ok installed →
  (list_for_update d).1 = Ok []
  ∧ length (list_for_update d).2 = length (remotes d).
Proof.
  intros Hok Hrs Hinst.
  unfold flatpak_installation_list_installed_refs_for_update,
    flatpak_installation_list_remotes, flatpak_dir_list_remotes.
  rewrite Hok, Hinst. unfold UpdateDiff.scan_remotes.
  destruct (scan_all_failed d (remotes d) (∅, []) Hrs) as [Hht Hdebug].
  destruct (foldl (scan_remote d) (∅, []) (remotes d)) as [ht debug].
  simpl in *. subst ht.
  by rewrite UpdateDiffFacts.collect_updates_filter, filter_needs_update_empty.
Qed.

(** *** Where a reported commit comes from *)

Lemma scan_lookup d rs : ∀ acc k c,
  (foldl (scan_remote d) acc rs).1 !! k = Some c →
  acc.1 !! k = Some c
  ∨ ∃ remote refs rr,
      remote ∈ rs ∧ list_remote_refs_sync d remote = inr refs ∧ rr ∈ refs
      ∧ k = update_key remote (remote_ref rr) ∧ c = remote_commit rr.
Proof.
  induction rs as [|r rs IH]; intros acc k c; simpl; [by left|].
  intros H. apply IH in H as [H|(remote & refs & rr & Hin & Hrest)].
  - unfold UpdateDiff.scan_remote in H.
    destruct (list_remote_refs_sync d r) as [e|refs] eqn:Hl; simpl in H; [by left|].
    apply UpdateDiffFacts.insert_refs_lookup in H as [H|(rr & Hrr & Hk & Hc)]; [by left|].
    right. exists r, refs, rr. split; [apply elem_of_cons; by left|done].
  - right. exists remote, refs, rr. split; [apply elem_of_cons; by right|done].
Qed.

(** When neither the remote names nor the origin contain a colon, a
    reported ref was found in the catalog of its own origin remote: that
    remote is configured, could be listed, and advertises the ref at a
    commit other than the ref's latest commit. *)
Theorem update_from_origin d updates x :
  (list_for_update d).1 = Ok updates →
  x ∈ updates →
  Forall (λ r, has_colon r = false) (remotes d) →
  has_colon (installed_origin x) = false →
  ∃ refs rr,
    installed_origin x ∈ remotes d
    ∧ list_remote_refs_sync d (installed_origin x) = inr refs
    ∧ rr ∈ refs
    ∧ remote_ref rr = installed_ref x
    ∧ Some (remote_commit rr) ≠ latest_commit x.
Proof.
  intros H Hx Hremotes Horigin.
  apply list_for_update_inv in H as (installed & _ & _ & ->).
  apply list_elem_of_In, filter_In in Hx as [_ Hx].
  apply UpdateDiffFacts.needs_update_true in Hx as (c & Hc & Hne).
  unfold UpdateDiff.scan_remotes in Hc.
  apply scan_lookup in Hc as [Hc|(remote & refs & rr & Hin & Hl & Hrr & Hk & ->)].
  { simpl in Hc. by rewrite lookup_empty in Hc. }
  rewrite Forall_forall in Hremotes.
  apply UpdateDiffFacts.update_key_inj in Hk as [-> Href]; [|done|by apply Hremotes].
  exists refs, rr. by rewrite <- Href.
Qed.

End Listing.

End UpdateDiffMore.

(** ** More on the transactions *)

Module TransactionsMore.
Import Progress Query Transactions Plans Lookup.

Ltac tx_unfold := TransactionFacts.tx_unfold.
Ltac tx_split := TransactionFacts.tx_split.

(** The world a transaction starts from. *)
Local Abbreviation fresh d := {| disk := d; lock := false; calls := []; delivered := [] |}.


Ltac steps_done :=
  try (exfalso; eapply QueryMore.get_ref_not_Err; eassumption);
  (split; [intros _; split; intros ? H; by inversion H
          |TransactionFacts.calls_forall]).

(** The steps of install.  When the ref is already deployed there is
    none.  Otherwise, whenever install returns, with a snapshot or with an
    error, it has pushed the main context, made the one call of
    flatpak_dir_install, popped the context and, with a callback, ended
    the progress; an error it returns then is the error of that call.  No
    step runs with the lock. *)
Theorem install_steps (E : Engine) remote kind name arch branch progress (d : FlatpakDir)
    ref :
  flatpak_compose_ref E (bool_decide (kind = FLATPAK_REF_KIND_APP)) name branch arch = inr ref →
  let res := run (flatpak_installation_install E remote kind name arch branch progress) d in
  let s := flatpak_dir_install ref remote in
  (deploy_base_exists d ref = true → steps (calls res.2) = [])
  ∧ (deploy_base_exists d ref = false →
     (∀ r, res.1 = Ok r → steps (calls res.2) = pull_plan s progress ∧ fails E s = None)
     ∧ (∀ e, res.1 = Err e →
             steps (calls res.2) = pull_plan s progress ∧ fails E s = Some e))
  ∧ Forall (λ c, c.2 = false) (calls res.2).
Proof.
  intros Href. unfold flatpak_installation_install, steps, pull_plan. tx_unfold.
  rewrite Href. simpl.
  destruct (deploy_base_exists d ref); simpl.
  { split; [done|]. split; [discriminate|constructor]. }
  split; [discriminate|].
  destruct progress; simpl.
  - destruct (emit _ _ _ 0 (signals E (flatpak_dir_install ref remote)))
      as [rs [last|]]; simpl; tx_split; steps_done.
  - tx_split; steps_done.
Qed.

(** The steps of update, for a ref whose origin and subpaths are on
    record.  When the ref is not deployed there is none.  Otherwise,
    whenever update returns, it has pushed the main context, made the one
    call of flatpak_dir_update with the two toggles read off the flags,
    popped the context and, with a callback, ended the progress; an error
    it returns then is the error of that call.  No step runs with the
    lock. *)
Theorem update_steps (E : Engine) flags kind name arch branch progress (d : FlatpakDir)
    ref origin subpaths :
  flatpak_compose_ref E (bool_decide (kind = FLATPAK_REF_KIND_APP)) name branch arch = inr ref →
  get_origin d ref = inr origin →
  get_subpaths d ref = inr subpaths →
  let res := run (flatpak_installation_update E flags kind name arch branch progress) d in
  let s := flatpak_dir_update
             (bool_decide (Z.land flags (FLATPAK_UPDATE_FLAGS_NO_PULL E) ≠ 0))
             (bool_decide (Z.land flags (FLATPAK_UPDATE_FLAGS_NO_DEPLOY E) ≠ 0))
             origin ref subpaths in
  (deploy_base_exists d ref = false → steps (calls res.2) = [])
  ∧ (deploy_base_exists d ref = true →
     (∀ r, res.1 = Ok r → steps (calls res.2) = pull_plan s progress ∧ fails E s = None)
     ∧ (∀ e, res.1 = Err e →
             steps (calls res.2) = pull_plan s progress ∧ fails E s = Some e))
  ∧ Forall (λ c, c.2 = false) (calls res.2).
Proof.
  intros Href Horigin Hsub. unfold flatpak_installation_update, steps, pull_plan. tx_unfold.
  rewrite Href. simpl.
  destruct (deploy_base_exists d ref); simpl.
  2: { split; [done|]. split; [discriminate|constructor]. }
  split; [discriminate|].
  rewrite Horigin. simpl. rewrite Hsub. simpl.
  destruct progress; simpl.
  - destruct (emit _ _ _ 0 (signals E _)) as [rs [last|]]; simpl; tx_split; steps_done.
  - tx_split; steps_done.
Qed.

(** *** Bundles *)

Lemma filter_fresh (remote : string) (l : list string) :
  remote ∉ l → filter (λ r, r ≠ remote) (l ++ [remote]) = l.
Proof.
  intros Hnot. rewrite filter_app.
  rewrite (filter_cons_False _ remote []) by (intros H; by apply H).
  rewrite filter_nil, app_nil_r.
  induction l as [|x l IH]; [done|].
  rewrite filter_cons_True.
  - f_equal. apply IH. intros Hin. apply Hnot. apply elem_of_cons. by right.
  - intros ->. apply Hnot. apply elem_of_cons. by left.
Qed.

(** install_bundle deletes a remote exactly when it has created that
    remote and returns an error: not when it succeeds, not when it fails
    before the remote exists, and never another remote. *)
Theorem install_bundle_deletes_iff (E : Engine) file (d : FlatpakDir) remote :
  let res := run (flatpak_installation_install_bundle E file) d in
  deletes remote (calls res.2)
  ↔ (∃ e, res.1 = Err e)
    ∧ ∃ b kind name arch branch,
        flatpak_bundle_load E file = inr b
        ∧ flatpak_decompose_ref E (bundle_ref b) = inr (kind, name, arch, branch)
        ∧ deploy_base_exists d (bundle_ref b) = false
        ∧ origin_remote E (bundle_origin b) name (g_file_get_basename E file) = inr remote.
Proof.
  unfold flatpak_installation_install_bundle, deletes, steps. tx_unfold.
  destruct (flatpak_bundle_load E file) as [e|b] eqn:Hload; simpl.
  { split; [intros H; by apply elem_of_nil in H|]. by intros (_ & ? & ? & ? & ? & ? & ? & _). }
  destruct (flatpak_decompose_ref E (bundle_ref b)) as [e|[[[kind name] arch] branch]]
    eqn:Hparts; simpl.
  { split; [intros H; by apply elem_of_nil in H|].
    intros (_ & ? & ? & ? & ? & ? & [= <-] & ? & _). congruence. }
  destruct (deploy_base_exists d (bundle_ref b)) eqn:Hdep; simpl.
  { split; [intros H; by apply elem_of_nil in H|].
    intros (_ & ? & ? & ? & ? & ? & [= <-] & ? & ? & _). congruence. }
  destruct (origin_remote E (bundle_origin b) name (g_file_get_basename E file))
    as [e|created] eqn:Hremote; simpl.
  { split.
    - intros H. apply list_elem_of_singleton in H. discriminate H.
    - intros (_ & ? & ? & ? & ? & ? & [= <-] & Hp & _ & Hr).
      rewrite Hparts in Hp. injection Hp as <- <- <- <-. congruence. }
  assert (∀ b' kind' name' arch' branch',
            @inr GError Bundle b = inr b' →
            flatpak_decompose_ref E (bundle_ref b') = inr (kind', name', arch', branch') →
            origin_remote E (bundle_origin b') name' (g_file_get_basename E file)
            = inr remote →
            created = remote) as Hsame.
  { intros b' ? ? ? ? [= <-] Hp Hr. rewrite Hparts in Hp. injection Hp as <- <- <- <-.
    congruence. }
  tx_split.
  all: split;
    [ intros H; repeat (apply elem_of_cons in H as [H|H]; try discriminate H);
      try (by apply elem_of_nil in H);
      injection H as <-; (split; [by eexists|]);
      by exists b, kind, name, arch, branch
    | intros ([e' He'] & b' & ? & ? & ? & ? & Hb & Hp & _ & Hr);
      try discriminate He';
      rewrite <- (Hsame _ _ _ _ _ Hb Hp Hr); set_solver ].
Qed.

(** A bundle install that fails before the remote exists (unreadable
    bundle, malformed ref, ref already installed) takes no step and leaves
    the directory as it was; one that fails in the creation of the remote
    has taken that one step and leaves the remotes as they were. *)
Theorem install_bundle_before_remote (E : Engine) file (d : FlatpakDir) :
  let res := run (flatpak_installation_install_bundle E file) d in
  ((∃ e, flatpak_bundle_load E file = inl e)
   ∨ (∃ b, flatpak_bundle_load E file = inr b
           ∧ ((∃ e, flatpak_decompose_ref E (bundle_ref b) = inl e)
              ∨ deploy_base_exists d (bundle_ref b) = true)) →
   ∃ e, res = (Err e, fresh d))
  ∧ (∀ b kind name arch branch e,
       flatpak_bundle_load E file = inr b →
       flatpak_decompose_ref E (bundle_ref b) = inr (kind, name, arch, branch) →
       deploy_base_exists d (bundle_ref b) = false →
       origin_remote E (bundle_origin b) name (g_file_get_basename E file) = inl e →
       res.1 = Err e
       ∧ disk res.2 = d
       ∧ steps (calls res.2)
         = [flatpak_dir_create_origin_remote (bundle_origin b) name
              (g_file_get_basename E file) (bool_decide (bundle_gpg_data b ≠ None))]).
Proof.
  unfold flatpak_installation_install_bundle, steps. tx_unfold. split.
  - intros [[e He]|(b & Hb & [[e He]|Hdep])].
    + rewrite He. simpl. by eexists.
    + rewrite Hb. simpl. rewrite He. simpl. by eexists.
    + rewrite Hb. simpl.
      destruct (flatpak_decompose_ref E (bundle_ref b)) as [e|[[[kind name] arch] branch]];
        simpl; [by eexists|].
      rewrite Hdep. simpl. by eexists.
  - intros b kind name arch branch e Hb Hp Hdep Hr.
    rewrite Hb. simpl. rewrite Hp. simpl. rewrite Hdep. simpl. rewrite Hr. simpl. done.
Qed.

(** When the deletion of a remote takes exactly that entry out of the
    remotes, no other step of the engine touches them, and the name of the
    created remote is new, a bundle install that fails after the creation
    leaves exactly the remotes it found. *)
Theorem install_bundle_restores_remotes (E : Engine) file (d : FlatpakDir) b kind name
    arch branch remote e :
  (∀ s d', (∀ r, s ≠ ostree_repo_remote_delete r) →
           remotes (effect E s d') = remotes d') →
  (∀ d', remotes (effect E (ostree_repo_remote_delete remote) d')
         = filter (λ r, r ≠ remote) (remotes d')) →
  flatpak_bundle_load E file = inr b →
  flatpak_decompose_ref E (bundle_ref b) = inr (kind, name, arch, branch) →
  deploy_base_exists d (bundle_ref b) = false →
  origin_remote E (bundle_origin b) name (g_file_get_basename E file) = inr remote →
  remote ∉ remotes d →
  let res := run (flatpak_installation_install_bundle E file) d in
  res.1 = Err e →
  remotes (disk res.2) = remotes d.
Proof.
  intros Heffect Hdelete Hload Hparts Hdeploy Hremote Hfresh.
  unfold flatpak_installation_install_bundle. tx_unfold.
  rewrite Hload. simpl. rewrite Hparts. simpl. rewrite Hdeploy, Hremote. simpl.
  tx_split; intros He; try discriminate He.
  all: rewrite Hdelete; rewrite ?Heffect by (intros r; discriminate); simpl;
    by apply filter_fresh.
Qed.

(** *** Uninstall *)

Ltac prefix_of_plan :=
  unfold uninstall_plan; simpl;
  first [ by eexists
        | rewrite decide_True by done; simpl; by eexists
        | rewrite decide_False by done; simpl; by eexists ].

(** Whatever happens, the steps that uninstall has taken are an initial
    part of the one sequence lock, set-active, (drop-current-ref),
    undeploy-all, remove-ref, release, prune, cleanup-removed,
    (update-exports), mark-changed; the current ref is only dropped for an
    app. *)
Theorem uninstall_steps_prefix (E : Engine) kind name arch branch (d : FlatpakDir) ref :
  flatpak_compose_ref E (bool_decide (kind = FLATPAK_REF_KIND_APP)) name branch arch = inr ref →
  let res := run (flatpak_installation_uninstall E kind name arch branch) d in
  ∃ remote_name drop,
    steps (calls res.2) `prefix_of` uninstall_plan kind name ref remote_name drop
    ∧ (drop = true → kind = FLATPAK_REF_KIND_APP).
Proof.
  intros Href. unfold flatpak_installation_uninstall, steps. tx_unfold.
  rewrite Href. simpl.
  destruct (fails E flatpak_dir_lock); simpl.
  { exists "", false. split; [prefix_of_plan|done]. }
  destruct (deploy_base_exists d ref); simpl.
  2: { exists "", false. split; [prefix_of_plan|done]. }
  destruct (get_origin d ref) as [e|remote_name]; simpl.
  { exists "", false. split; [prefix_of_plan|done]. }
  exists remote_name.
  destruct (fails E (flatpak_dir_set_active ref)); simpl.
  { exists false. split; [prefix_of_plan|done]. }
  destruct (decide (kind = FLATPAK_REF_KIND_APP)) as [Hkind|Hkind]; simpl.
  - destruct (decide (current_ref (effect E (flatpak_dir_set_active ref) d) (Some name)
                      = Some ref)); simpl.
    + exists true. split; [|done]. tx_split; prefix_of_plan.
    + exists false. split; [|done]. tx_split; prefix_of_plan.
  - exists false. split; [|done]. tx_split; prefix_of_plan.
Qed.

(** uninstall returns success only after the whole sequence has run, the
    last step being the change marker, and only when undeploy-all reported
    that something was deployed. *)
Theorem uninstall_success (E : Engine) kind name arch branch (d : FlatpakDir) ref
    remote_name :
  flatpak_compose_ref E (bool_decide (kind = FLATPAK_REF_KIND_APP)) name branch arch = inr ref →
  get_origin d ref = inr remote_name →
  let res := run (flatpak_installation_uninstall E kind name arch branch) d in
  res.1 = Ok () →
  was_deployed E ref = true
  ∧ deploy_base_exists d ref = true
  ∧ Forall (λ s, fails E s = None)
      (filter (λ s, s ≠ flatpak_dir_cleanup_removed ∧ s ≠ glnx_release_lock_file)
         (steps (calls res.2)))
  ∧ ∃ drop, steps (calls res.2) = uninstall_plan kind name ref remote_name drop.
Proof.
  intros Href Horigin. unfold flatpak_installation_uninstall, steps, uninstall_plan. tx_unfold.
  rewrite Href. simpl.
  destruct (fails E flatpak_dir_lock) eqn:Hlock; simpl; [discriminate|].
  destruct (deploy_base_exists d ref); simpl; [|discriminate].
  rewrite Horigin. simpl.
  destruct (was_deployed E ref) eqn:Hwas.
  2: { tx_split; discriminate. }
  destruct (decide (kind = FLATPAK_REF_KIND_APP)) as [Hkind|Hkind]; simpl.
  - destruct (decide (current_ref (effect E (flatpak_dir_set_active ref) d) (Some name)
                      = Some ref)); simpl.
    + tx_split; intros Hres; try discriminate Hres.
      repeat split; [|by exists true].
      repeat (first [rewrite filter_cons_True by (split; discriminate)
                    | rewrite filter_cons_False by (intros [? ?]; done)]).
      rewrite filter_nil. repeat constructor; done.
    + tx_split; intros Hres; try discriminate Hres.
      repeat split; [|by exists false].
      repeat (first [rewrite filter_cons_True by (split; discriminate)
                    | rewrite filter_cons_False by (intros [? ?]; done)]).
      rewrite filter_nil. repeat constructor; done.
  - tx_split; intros Hres; try discriminate Hres.
    repeat split; [|by exists false].
    repeat (first [rewrite filter_cons_True by (split; discriminate)
                  | rewrite filter_cons_False by (intros [? ?]; done)]).
    rewrite filter_nil. repeat constructor; done.
Qed.

(** For a runtime, uninstall never drops a current ref and never updates
    exports. *)
Theorem uninstall_runtime_steps (E : Engine) name arch branch (d : FlatpakDir) :
  let res := run (flatpak_installation_uninstall E FLATPAK_REF_KIND_RUNTIME name arch
                    branch) d in
  Forall (λ s, match s with
               | flatpak_dir_drop_current_ref _ | flatpak_dir_update_exports _ => False
               | _ => True
               end)
    (steps (calls res.2)).
Proof.
  unfold flatpak_installation_uninstall, steps. tx_unfold.
  tx_split; repeat constructor.
Qed.

(** The outcome of the cleanup of removed deploys is not looked at: an
    engine in which that step has another outcome gives the same result
    and the same final state. *)
Theorem uninstall_ignores_cleanup (E : Engine) (o : option GError) kind name arch branch
    (d : FlatpakDir) :
  run (flatpak_installation_uninstall (with_outcome flatpak_dir_cleanup_removed o E)
         kind name arch branch) d
  = run (flatpak_installation_uninstall E kind name arch branch) d.
Proof.
  unfold flatpak_installation_uninstall. tx_unfold.
  destruct (flatpak_compose_ref E _ name branch arch) as [e|ref]; simpl; [done|].
  destruct (fails E flatpak_dir_lock); simpl; [done|].
  destruct (deploy_base_exists d ref); simpl; [|done].
  destruct (get_origin d ref); simpl; [done|].
  tx_split; reflexivity.
Qed.

(** Before anything is changed: when the lock cannot be taken its error
    is returned, and when the ref has no deploy directory the error is
    NotInstalled; in both cases the only step is the attempt to lock, the
    lock is released and the directory is as it was. *)
Theorem uninstall_nothing_changed (E : Engine) kind name arch branch (d : FlatpakDir) ref :
  flatpak_compose_ref E (bool_decide (kind = FLATPAK_REF_KIND_APP)) name branch arch = inr ref →
  let res := run (flatpak_installation_uninstall E kind name arch branch) d in
  (∀ e, fails E flatpak_dir_lock = Some e →
        res = (Err e, {| disk := d; lock := false;
                         calls := [(flatpak_dir_lock, false)]; delivered := [] |}))
  ∧ (fails E flatpak_dir_lock = None → deploy_base_exists d ref = false →
     res = (Err {| code := FLATPAK_ERROR_NOT_INSTALLED;
                   message := name +:+ " branch " +:+ default "master" branch
                                +:+ " is not installed" |},
            {| disk := d; lock := false;
               calls := [(flatpak_dir_lock, false)]; delivered := [] |})).
Proof.
  intros Href. unfold flatpak_installation_uninstall. tx_unfold.
  rewrite Href. simpl. split.
  - intros e He. rewrite He. done.
  - intros Hlock Hdep. rewrite Hlock. simpl. rewrite Hdep. done.
Qed.

End TransactionsMore.

(** ** The further properties at the small installation *)

Module AtTheScenario.
Import Progress ProgressConditions Query UpdateDiff Lookup Transactions Plans.

Local Abbreviation fs := (g_format_size Scenario.all_is_well).
Local Abbreviation ff := (g_format_size_full Scenario.all_is_well).
Local Abbreviation dp := (double_percent Scenario.all_is_well).

Lemma progress_cb_outside_fetch_witness :
  ∃ r, progress_cb fs ff dp 50 Fixtures.with_status = Some (r, 50)
       ∧ percent r = 50 ∧ estimating r = false
       ∧ ∀ s, status Fixtures.with_status = Some s → text r = s.
Proof.
  apply (ProgressMore.progress_cb_outside_fetch fs ff dp 50 Fixtures.with_status).
  - lia.
  - left. by eexists.
Defined.

Lemma progress_cb_estimating_witness :
  (true = true
   ↔ status (Scenario.receiving 5 10 1) = None
     ∧ outstanding_fetches (Scenario.receiving 5 10 1) ≠ 0
     ∧ ¬ total_delta_parts (Scenario.receiving 5 10 1) > 0
     ∧ outstanding_metadata_fetches (Scenario.receiving 5 10 1) ≠ 0)
  ∧ (true = true → 50 = Z.max 1 50).
Proof.
  apply (ProgressMore.progress_cb_estimating fs ff dp 50 (Scenario.receiving 5 10 1)
           {| text := "Receiving metadata objects: 1/(estimating) 2048 bytes/s 4096 bytes";
              percent := 50; estimating := true |} 50).
  vm_compute. reflexivity.
Defined.

Lemma emit_percent_range_witness :
  Forall (λ x, 0 ≤ x ≤ 100) (percents (emit fs ff dp 0 Scenario.pull_signals).1).
Proof.
  apply (ProgressMore.emit_percent_range fs ff dp Scenario.pull_signals).
  repeat (apply Forall_cons_2; [split; simpl; lia|]). apply Forall_nil_2.
Defined.

Lemma emit_complete_witness :
  ∃ rs, emit fs ff dp 0 Scenario.pull_signals = (rs, Some (last_percent 0 rs))
        ∧ length rs = length Scenario.pull_signals.
Proof.
  apply (ProgressMore.emit_complete fs ff dp Scenario.pull_signals 0).
  repeat (apply Forall_cons_2;
            [intros (_ & _ & [H|[[H _]|(_ & _ & H)]]); vm_compute in H; discriminate H|]).
  apply Forall_nil_2.
Defined.

Lemma get_ref_canonical_witness :
  ∃ r, get_ref Scenario.dir ("app/" +:+ "org.example.Foo" +:+ "/" +:+ "x86_64/master") = Ok r
       ∧ is_current r
         = bool_decide (current_ref Scenario.dir (Some "org.example.Foo")
                        = Some ("app/" +:+ "org.example.Foo" +:+ "/" +:+ "x86_64/master")).
Proof.
  apply (QueryMore.get_ref_canonical Scenario.dir "org.example.Foo" "x86_64/master"
           Fixtures.foo_deploy); reflexivity.
Defined.

Lemma list_installed_refs_order_witness :
  ∃ raw_apps raw_runtimes,
    list_refs Scenario.dir "app" = inr raw_apps
    ∧ list_refs Scenario.dir "runtime" = inr raw_runtimes
    ∧ installed_ref <$> [Scenario.foo_snapshot; Scenario.platform_snapshot]
      = raw_apps ++ raw_runtimes.
Proof.
  apply (QueryMore.list_installed_refs_order Scenario.dir
           [Scenario.foo_snapshot; Scenario.platform_snapshot]).
  vm_compute. reflexivity.
Defined.

Lemma get_installed_ref_listed_witness :
  Scenario.foo_snapshot ∈ [Scenario.foo_snapshot; Scenario.platform_snapshot].
Proof.
  apply (QueryMore.get_installed_ref_listed Fixtures.arch Fixtures.build_app_ref
           Fixtures.build_runtime_ref Scenario.dir FLATPAK_REF_KIND_APP "org.example.Foo"
           None None Scenario.foo_snapshot
           [Scenario.foo_snapshot; Scenario.platform_snapshot]).
  - vm_compute. reflexivity.
  - vm_compute. reflexivity.
  - apply elem_of_cons. left. reflexivity.
Defined.

Lemma updates_sublist_witness :
  ∃ installed,
    flatpak_installation_list_installed_refs Scenario.dir = Ok installed
    ∧ [Scenario.foo_snapshot] `sublist_of` installed.
Proof.
  apply (UpdateDiffMore.updates_sublist Scenario.remote_ref_new Scenario.dir
           [Scenario.foo_snapshot]).
  vm_compute. reflexivity.
Defined.

Lemma no_catalog_no_updates_witness :
  (flatpak_installation_list_installed_refs_for_update Scenario.remote_ref_new
     Fixtures.offline).1 = Ok []
  ∧ length (flatpak_installation_list_installed_refs_for_update Scenario.remote_ref_new
              Fixtures.offline).2
    = length (remotes Fixtures.offline).
Proof.
  apply (UpdateDiffMore.no_catalog_no_updates Scenario.remote_ref_new Fixtures.offline
           [Scenario.foo_snapshot; Scenario.platform_snapshot]).
  - reflexivity.
  - repeat (apply Forall_cons_2; [by eexists|]). apply Forall_nil_2.
  - vm_compute. reflexivity.
Defined.

Lemma update_from_origin_witness :
  ∃ refs rr,
    installed_origin Scenario.foo_snapshot ∈ remotes Scenario.dir
    ∧ flatpak_installation_list_remote_refs_sync Scenario.remote_ref_new Scenario.dir
        (installed_origin Scenario.foo_snapshot) = inr refs
    ∧ rr ∈ refs
    ∧ remote_ref rr = installed_ref Scenario.foo_snapshot
    ∧ Some (remote_commit rr) ≠ latest_commit Scenario.foo_snapshot.
Proof.
  apply (UpdateDiffMore.update_from_origin Scenario.remote_ref_new Scenario.dir
           [Scenario.foo_snapshot] Scenario.foo_snapshot).
  - vm_compute. reflexivity.
  - apply elem_of_cons. left. reflexivity.
  - repeat (apply Forall_cons_2; [reflexivity|]). apply Forall_nil_2.
  - reflexivity.
Defined.


Lemma install_steps_witness :
  let res := run (flatpak_installation_install Scenario.all_is_well "test-remote"
                    FLATPAK_REF_KIND_APP "org.example.Baz" None None true) Scenario.dir in
  let s := flatpak_dir_install Scenario.baz "test-remote" in
  (deploy_base_exists Scenario.dir Scenario.baz = true → steps (calls res.2) = [])
  ∧ (deploy_base_exists Scenario.dir Scenario.baz = false →
     (∀ r, res.1 = Ok r →
           steps (calls res.2) = pull_plan s true ∧ fails Scenario.all_is_well s = None)
     ∧ (∀ e, res.1 = Err e →
             steps (calls res.2) = pull_plan s true
             ∧ fails Scenario.all_is_well s = Some e))
  ∧ Forall (λ c, c.2 = false) (calls res.2).
Proof.
  exact (TransactionsMore.install_steps Scenario.all_is_well "test-remote"
           FLATPAK_REF_KIND_APP "org.example.Baz" None None true Scenario.dir
           Scenario.baz eq_refl).
Defined.

Lemma update_steps_witness :
  let res := run (flatpak_installation_update Scenario.all_is_well 1 FLATPAK_REF_KIND_APP
                    "org.example.Foo" None None false) Scenario.dir in
  let s := flatpak_dir_update false true "test-remote" Scenario.foo [] in
  (deploy_base_exists Scenario.dir Scenario.foo = false → steps (calls res.2) = [])
  ∧ (deploy_base_exists Scenario.dir Scenario.foo = true →
     (∀ r, res.1 = Ok r →
           steps (calls res.2) = pull_plan s false ∧ fails Scenario.all_is_well s = None)
     ∧ (∀ e, res.1 = Err e →
             steps (calls res.2) = pull_plan s false
             ∧ fails Scenario.all_is_well s = Some e))
  ∧ Forall (λ c, c.2 = false) (calls res.2).
Proof.
  exact (TransactionsMore.update_steps Scenario.all_is_well 1 FLATPAK_REF_KIND_APP
           "org.example.Foo" None None false Scenario.dir Scenario.foo "test-remote" []
           eq_refl eq_refl eq_refl).
Defined.

Lemma install_bundle_restores_remotes_witness :
  remotes (disk (run (flatpak_installation_install_bundle Scenario.deploy_fails
                        "bar.bundle") Scenario.dir).2)
  = remotes Scenario.dir.
Proof.
  apply (TransactionsMore.install_bundle_restores_remotes Scenario.deploy_fails
           "bar.bundle" Scenario.dir Scenario.bar_bundle "app" "org.example.Bar" "x86_64"
           "master" "org.example.Bar-origin" Scenario.disk_full).
  - intros s d' Hs. destruct s; try reflexivity. by destruct (Hs remote).
  - reflexivity.
  - reflexivity.
  - reflexivity.
  - reflexivity.
  - reflexivity.
  - vm_compute. intros H. repeat (apply elem_of_cons in H as [H|H]; [discriminate H|]).
    by apply elem_of_nil in H.
  - vm_compute. reflexivity.
Defined.

Lemma uninstall_steps_prefix_witness :
  ∃ remote_name drop,
    steps (calls (run (flatpak_installation_uninstall Scenario.all_is_well
                         FLATPAK_REF_KIND_APP "org.example.Foo" None None)
                    Scenario.dir).2)
      `prefix_of` uninstall_plan FLATPAK_REF_KIND_APP "org.example.Foo" Scenario.foo
                    remote_name drop
    ∧ (drop = true → FLATPAK_REF_KIND_APP = FLATPAK_REF_KIND_APP).
Proof.
  exact (TransactionsMore.uninstall_steps_prefix Scenario.all_is_well FLATPAK_REF_KIND_APP
           "org.example.Foo" None None Scenario.dir Scenario.foo eq_refl).
Defined.

Lemma uninstall_success_witness :
  was_deployed Scenario.all_is_well Scenario.foo = true
  ∧ deploy_base_exists Scenario.dir Scenario.foo = true
  ∧ Forall (λ s, fails Scenario.all_is_well s = None)
      (filter (λ s, s ≠ flatpak_dir_cleanup_removed ∧ s ≠ glnx_release_lock_file)
         (steps (calls (run (flatpak_installation_uninstall Scenario.all_is_well
                               FLATPAK_REF_KIND_APP "org.example.Foo" None None)
                          Scenario.dir).2)))
  ∧ ∃ drop,
      steps (calls (run (flatpak_installation_uninstall Scenario.all_is_well
                           FLATPAK_REF_KIND_APP "org.example.Foo" None None)
                      Scenario.dir).2)
      = uninstall_plan FLATPAK_REF_KIND_APP "org.example.Foo" Scenario.foo "test-remote" drop.
Proof.
  apply (TransactionsMore.uninstall_success Scenario.all_is_well FLATPAK_REF_KIND_APP
           "org.example.Foo" None None Scenario.dir Scenario.foo "test-remote");
    first [reflexivity | vm_compute; reflexivity].
Defined.

Lemma uninstall_nothing_changed_witness :
  run (flatpak_installation_uninstall Fixtures.lock_is_busy FLATPAK_REF_KIND_APP
         "org.example.Foo" None None) Scenario.dir
  = (Err Scenario.disk_full,
     {| disk := Scenario.dir; lock := false;
        calls := [(flatpak_dir_lock, false)]; delivered := [] |}).
Proof.
  apply (TransactionsMore.uninstall_nothing_changed Fixtures.lock_is_busy
           FLATPAK_REF_KIND_APP "org.example.Foo" None None Scenario.dir Scenario.foo
           eq_refl).
  reflexivity.
Defined.

End AtTheScenario.
